(** * ec2_ami: the image lifecycle controller of cloud/amazon/ec2_ami.py

    A shallow embedding of [create_image], [deregister_image],
    [update_image] and [main], and the properties of their convergence
    workflow.

    The module talks to two collaborators that are not part of it: the boto
    EC2 connection ([ec2.get_image], [ec2.create_image], ...) and the Python
    clock ([time.time], [time.sleep]).  Both are kept abstract: a record of
    answer functions over an arbitrary type of worlds.  The controller is
    written in a small state-and-exception monad that threads the world and
    a log of every call issued, so that "no call is issued" and "this call
    carries that argument" are statements about the log. *)

From Stdlib Require Import ZArith QArith String List Bool Lia Lqa.
From stdpp Require Import base option list gmap strings pretty.

Set Warnings "-register-all".

Local Open Scope string_scope.
Local Open Scope Z_scope.
Local Open Scope list_scope.

(** ** Python values *)

(** Scalars that occur as dictionary values in the module's parameters. *)
Inductive pyval :=
| PNone
| PBool (b : bool)
| PInt (z : Z)
| PStr (s : string).

#[global] Instance pyval_eq_dec : EqDecision pyval.
Proof. solve_decision. Defined.

(** [str(v)] *)
Definition py_str (v : pyval) : string :=
  match v with
  | PNone => "None"
  | PBool true => "True"
  | PBool false => "False"
  | PInt z => pretty z
  | PStr s => s
  end.

(** [str(x)] of a value that is a string or [None] (as in ["%s" % x]). *)
Definition str_opt (o : option string) : string :=
  match o with
  | Some s => s
  | None => "None"
  end.

(** Truth value of a string-or-None parameter: [if x:]. *)
Definition truthy (o : option string) : bool :=
  match o with
  | Some s => negb (String.eqb s "")
  | None => false
  end.

(** [needle in hay] on strings. *)
Definition contains (needle hay : string) : bool :=
  match String.index 0 needle hay with
  | Some _ => true
  | None => false
  end.

(** Values handed to [exit_json] / [fail_json]. *)
Inductive jval :=
| JNone
| JBool (b : bool)
| JInt (z : Z)
| JStr (s : string)
| JList (l : list jval)
| JDict (d : list (string * jval)).

Definition jval_of_pyval (v : pyval) : jval :=
  match v with
  | PNone => JNone
  | PBool b => JBool b
  | PInt z => JInt z
  | PStr s => JStr s
  end.

Definition jopt (o : option string) : jval :=
  match o with
  | Some s => JStr s
  | None => JNone
  end.

(** A launch-permission dictionary: keys such as [user_ids] and
    [group_names], each bound to a list.  A [gmap], because the module
    compares two of them with [!=], which is extensional on dictionaries. *)
Abbreviation perms := (gmap string (list pyval)).

Definition jval_of_perms (d : perms) : jval :=
  JDict (map (fun kv => (fst kv, JList (map jval_of_pyval (snd kv)))) (map_to_list d)).

(** [k in d and d[k]] *)
Definition has_nonempty (k : string) (d : perms) : bool :=
  match d !! k with
  | Some (_ :: _) => true
  | _ => false
  end.

(** ** The objects boto returns *)

Module BlockDeviceType.
(** [boto.ec2.blockdevicemapping.BlockDeviceType]: one entry of an
    image's block device mapping. *)
Record t := {
  size : pyval;
  snapshot_id : option string;
  volume_type : pyval;
  encrypted : pyval;
  delete_on_termination : pyval
}.
End BlockDeviceType.

Module Image.
(** [boto.ec2.image.Image].  [id] and [block_device_mapping] are the two
    attributes the module tests with [hasattr]: [None] stands for an
    object that has no such attribute.  The mapping is listed in the
    order in which iterating over it yields its keys. *)
Record t := {
  id : option string;
  state : string;
  block_device_mapping : option (list (string * BlockDeviceType.t));
  architecture : jval;
  creationDate : jval;
  description : jval;
  hypervisor : jval;
  is_public : jval;
  location : jval;
  ownerId : jval;
  root_device_name : jval;
  root_device_type : jval;
  tags : jval;
  virtualization_type : jval
}.
End Image.

(** [boto.exception.BotoServerError] and its subclass
    [boto.exception.EC2ResponseError]. *)
Inductive boto_class := BotoServerError | EC2ResponseError.

Record boto_exception := {
  exc_class : boto_class;
  error_code : string;
  error_message : string
}.

(** [except boto.exception.EC2ResponseError] catches the subclass only;
    [except boto.exception.BotoServerError] catches both. *)
Definition is_EC2ResponseError (e : boto_exception) : bool :=
  match exc_class e with
  | EC2ResponseError => true
  | BotoServerError => false
  end.

(** What a remote call comes back with. *)
Inductive result (A : Type) :=
| Ok (a : A)
| Err (e : boto_exception).
Arguments Ok {A} a.
Arguments Err {A} e.

(** ** The module's parameters: [module.params] *)

Abbreviation device := (gmap string pyval).

Record params := {
  action : string;
  instance_id : option string;
  snapshot_id : option string;
  root_device_name : option string;
  kernel_id : option string;
  virtualization_type : option string;
  image_location : option string;
  architecture : string;
  delete_root_volume_on_termination : bool;
  sriov_net_support : option string;
  image_id : option string;
  delete_snapshot : bool;
  name : option string;
  wait : bool;
  wait_timeout : Z;
  description : string;
  no_reboot : bool;
  state : string;
  device_mapping : option (list device);
  tags : option (gmap string string);
  launch_permissions : option perms
}.

(** [BlockDeviceMapping()]: a dictionary from device names to
    [BlockDeviceType] objects, the latter kept as the keyword
    arguments they were built from. *)
Abbreviation bdm := (list (pyval * device)).

Fixpoint bdm_set (k : pyval) (v : device) (m : bdm) : bdm :=
  match m with
  | [] => [(k, v)]
  | (k', v') :: m' =>
      if decide (k' = k) then (k, v) :: m' else (k', v') :: bdm_set k v m'
  end.

(** Keyword arguments of [ec2.create_image]. *)
Record create_kwargs := {
  c_instance_id : option string;
  c_name : option string;
  c_description : string;
  c_no_reboot : bool;
  c_block_device_mapping : option bdm
}.

(** Keyword arguments of [ec2.register_image]. *)
Record register_kwargs := {
  r_snapshot_id : option string;
  r_root_device_name : option string;
  r_kernel_id : option string;
  r_virtualization_type : option string;
  r_name : option string;
  r_image_location : option string;
  r_delete_root_volume_on_termination : bool;
  r_sriov_net_support : option string;
  r_block_device_mapping : option bdm
}.

(** ** Calls and the collaborators that answer them *)

(** Every call the module makes to a collaborator, with its arguments
    ([CallTime] also records the reading it returned). *)
Inductive call :=
| CallGetAllImages (name : option string)
| CallGetImage (image_id : option string)
| CallCreateImage (kw : create_kwargs)
| CallRegisterImage (kw : register_kwargs)
| CallCreateTags (image_id : option string) (tags : gmap string string)
| CallGetLaunchPermissions (img : Image.t)
| CallSetLaunchPermissions (img : Image.t) (kw : perms)
| CallRemoveLaunchPermissions (img : Image.t) (kw : perms)
| CallDeregisterImage (image_id : option string) (delete_snapshot : bool)
| CallDeleteSnapshot (snapshot_id : option string)
| CallSleep (seconds : Z)
| CallTime (reading : Q).

Module Ec2.
(** The authenticated connection object [ec2], and the methods of the
    image objects it returns, over worlds [W]. *)
Record connection (W : Type) := {
  get_all_images : option string -> W -> result (list Image.t) * W;
  get_image : option string -> W -> result (option Image.t) * W;
  create_image : create_kwargs -> W -> result string * W;
  register_image : register_kwargs -> W -> result string * W;
  create_tags : option string -> gmap string string -> W -> result unit * W;
  get_launch_permissions : Image.t -> W -> result perms * W;
  set_launch_permissions : Image.t -> perms -> W -> result unit * W;
  remove_launch_permissions : Image.t -> perms -> W -> result unit * W;
  deregister_image : option string -> bool -> W -> result unit * W;
  delete_snapshot : option string -> W -> result unit * W
}.
Arguments get_all_images {W}.
Arguments get_image {W}.
Arguments create_image {W}.
Arguments register_image {W}.
Arguments create_tags {W}.
Arguments get_launch_permissions {W}.
Arguments set_launch_permissions {W}.
Arguments remove_launch_permissions {W}.
Arguments deregister_image {W}.
Arguments delete_snapshot {W}.
End Ec2.

Module time.
(** Python's [time] module: [time.time()] and [time.sleep(n)].  Readings
    are rationals (seconds since the epoch). *)
Record clock (W : Type) := {
  time : W -> Q * W;
  sleep : Z -> W -> W
}.
Arguments time {W}.
Arguments sleep {W}.
End time.

(** ** How a run ends *)

Abbreviation kwargs := (gmap string jval).

Inductive exn :=
| ExitJson (kw : kwargs)            (* module.exit_json *)
| FailJson (kw : kwargs)            (* module.fail_json *)
| Boto (e : boto_exception)         (* a remote call's error, while uncaught *)
| UnboundLocalError (var : string)  (* a local read before any assignment *)
| AttributeError (attr : string)    (* an attribute read on None, or absent *)
| TypeError (what : string).

Inductive res (A : Type) :=
| Val (a : A)      (* normal completion *)
| Exc (e : exn)    (* abrupt completion *)
| Fuel.            (* the bound on the iterations of a while loop ran out *)
Arguments Val {A} a.
Arguments Exc {A} e.
Arguments Fuel {A}.

(** A local variable: Python distinguishes a name that was never assigned
    from one that is bound to [None]. *)
Inductive local (A : Type) :=
| Unbound
| Bound (a : A).
Arguments Unbound {A}.
Arguments Bound {A} a.

(** ** The monad of the controller *)

Section Monad.
Context {W : Type}.

(** The world of the collaborators and the calls issued so far. *)
Definition st : Type := W * list call.

Definition M (A : Type) : Type := st -> res A * st.

Definition ret {A} (a : A) : M A := fun s => (Val a, s).

Definition bind {A B} (m : M A) (k : A -> M B) : M B :=
  fun s =>
    match m s with
    | (Val a, s') => k a s'
    | (Exc e, s') => (Exc e, s')
    | (Fuel, s') => (Fuel, s')
    end.

Definition raise {A} (e : exn) : M A := fun s => (Exc e, s).

Definition out_of_fuel {A} : M A := fun s => (Fuel, s).

(** [isinstance(e, cls)] for the two boto exception classes. *)
Definition isinstance (e : boto_exception) (cls : boto_class) : bool :=
  match cls with
  | BotoServerError => true
  | EC2ResponseError => is_EC2ResponseError e
  end.

(** [try: m except cls as e: h e].  [SystemExit] (raised by [exit_json]
    and [fail_json]) and the other Python errors are not boto exceptions
    and pass through. *)
Definition try_except {A} (m : M A) (cls : boto_class)
    (h : boto_exception -> M A) : M A :=
  fun s =>
    match m s with
    | (Exc (Boto e), s') =>
        if isinstance e cls then h e s' else (Exc (Boto e), s')
    | r => r
    end.

(** [try: m finally: f] *)
Definition try_finally {A} (m : M A) (f : M unit) : M A :=
  fun s =>
    match m s with
    | (Fuel, s') => (Fuel, s')
    | (r, s') =>
        match f s' with
        | (Val _, s'') => (r, s'')
        | (Exc e, s'') => (Exc e, s'')
        | (Fuel, s'') => (Fuel, s'')
        end
    end.

(** A remote call: ask the collaborator, log the call, raise its error. *)
Definition remote {A} (c : call) (f : W -> result A * W) : M A :=
  fun s =>
    let (r, w) := f (fst s) in
    (match r with
     | Ok a => Val a
     | Err e => Exc (Boto e)
     end, (w, snd s ++ [c])).

Definition exit_json {A} (kw : kwargs) : M A := raise (ExitJson kw).
Definition fail_json {A} (kw : kwargs) : M A := raise (FailJson kw).

Definition read_local {A} (var : string) (l : local A) : M A :=
  match l with
  | Bound a => ret a
  | Unbound => raise (UnboundLocalError var)
  end.

(** [img.id] *)
Definition get_id (img : Image.t) : M string :=
  match Image.id img with
  | Some i => ret i
  | None => raise (AttributeError "id")
  end.

(** [img.state], where [img] may be [None] *)
Definition get_state (img : option Image.t) : M string :=
  match img with
  | Some i => ret (Image.state i)
  | None => raise (AttributeError "state")
  end.

(** [steps R m]: whatever the collaborators answer, the state in which
    [m] ends is related by [R] to the one it started in. *)
Definition steps {A} (R : relation st) (m : M A) : Prop :=
  forall s r s', m s = (r, s') -> R s s'.

(** The log has grown by calls that satisfy [P]. *)
Definition appends (P : call -> Prop) : relation st :=
  fun s s' => exists l, snd s' = snd s ++ l /\ Forall P l.

(** The world still satisfies [I] if it did. *)
Definition keeps (I : W -> Prop) : relation st :=
  fun s s' => I (fst s) -> I (fst s').

(** [emits P m]: [m] only appends to the log, and every call it appends
    satisfies [P]. *)
Definition emits {A} (P : call -> Prop) (m : M A) : Prop :=
  steps (appends P) m.

(** [preserves I m]: [m] leaves the world in [I] if it found it there. *)
Definition preserves {A} (I : W -> Prop) (m : M A) : Prop :=
  steps (keeps I) m.
End Monad.

Arguments st W : clear implicits.
Arguments M W A : clear implicits.

Notation "'let*' x := m 'in' k" := (bind m (fun x => k))
  (at level 10, x name, m at level 100, k at level 200, only parsing).

Definition boto_msg (e : boto_exception) : string :=
  error_code e +:+ ": " +:+ error_message e.

(** [if d:] on a dictionary, [if l:] on a list, either possibly [None]. *)
Definition truthy_dict {V} (o : option (gmap string V)) : bool :=
  match o with
  | Some d => negb (bool_decide (d = ∅))
  | None => false
  end.

Definition truthy_list {A} (o : option (list A)) : bool :=
  match o with
  | Some (_ :: _) => true
  | _ => false
  end.

(** [range(n)] *)
Definition range (n : Z) : list Z := map Z.of_nat (seq 0 (Z.to_nat n)).

(** ** The keyword arguments of the module's reports *)

Definition msg_only (m : string) : kwargs := {[ "msg" := JStr m ]}.

(** Line 458 *)
Definition name_present (iid s : string) : kwargs :=
  <["msg" := JStr "AMI name already present"]>
  (<["image_id" := JStr iid]>
  (<["state" := JStr s]>
  (<["changed" := JBool false]> ∅))).

(** Lines 491 and 496 *)
Definition find_msg : string :=
  "Error while trying to find the new image. Using wait=yes and/or a longer wait_timeout may help.".

(** Line 508 *)
Definition permissions_failed (e : boto_exception) (iid : string) : kwargs :=
  <["msg" := JStr (boto_msg e)]> (<["image_id" := JStr iid]> ∅).

(** Line 510; [info] is the dictionary of [get_ami_info]. *)
Definition created (info : kwargs) : kwargs :=
  <["msg" := JStr "AMI creation operation complete"]>
  (<["changed" := JBool true]> info).

(** Lines 525 and 582 *)
Definition does_not_exist (image_id : option string) : kwargs :=
  <["msg" := JStr ("Image " +:+ str_opt image_id +:+ " does not exist")]>
  (<["changed" := JBool false]> ∅).

(** Line 543 *)
Definition already_deleted (image_id : option string) : kwargs :=
  <["msg" := JStr ("Image " +:+ str_opt image_id +:+ " has already been deleted")]>
  (<["changed" := JBool false]> ∅).

(** Line 553 *)
Definition timed_out_msg : string :=
  "timed out waiting for image to be deregistered/deleted".

Definition done_msg : string := "AMI deregister/delete operation complete".

(** Line 565 *)
Definition deregistered_with (snapshots : list (option string)) : kwargs :=
  <["msg" := JStr done_msg]>
  (<["changed" := JBool true]>
  (<["snapshots_deleted" := JList (map jopt snapshots)]> ∅)).

(** Line 567 *)
Definition deregistered : kwargs :=
  <["msg" := JStr done_msg]> (<["changed" := JBool true]> ∅).

(** Lines 592 and 595 *)
Definition not_updated (set_permissions : perms) : kwargs :=
  <["msg" := JStr "AMI not updated"]>
  (<["launch_permissions" := jval_of_perms set_permissions]>
  (<["changed" := JBool false]> ∅)).

(** Line 593 *)
Definition updated (launch_permissions set_permissions : perms) : kwargs :=
  <["msg" := JStr "AMI launch permissions updated"]>
  (<["launch_permissions" := jval_of_perms launch_permissions]>
  (<["set_perms" := jval_of_perms set_permissions]>
  (<["changed" := JBool true]> ∅))).

(** ** The controller *)

Inductive loop_ctl := Continue | Break.

Section Controller.
Context {W : Type}.
Variable ec2 : Ec2.connection W.
Variable clock : time.clock W.

Definition time_sleep (n : Z) : M W unit :=
  fun s => (Val tt, (time.sleep clock n (fst s), snd s ++ [CallSleep n])).

Definition time_time : M W Q :=
  fun s =>
    let (t, w) := time.time clock (fst s) in
    (Val t, (w, snd s ++ [CallTime t])).

(** *** get_block_device_mapping, get_ami_info *)

Definition get_block_device_mapping (image : option Image.t) : jval :=
  match image with
  | Some img =>
      match Image.block_device_mapping img with
      | Some m =>
          JDict (map (fun kv =>
            (fst kv,
             JDict [("size", jval_of_pyval (BlockDeviceType.size (snd kv)));
                    ("snapshot_id", jopt (BlockDeviceType.snapshot_id (snd kv)));
                    ("volume_type",
                     jval_of_pyval (BlockDeviceType.volume_type (snd kv)));
                    ("encrypted",
                     jval_of_pyval (BlockDeviceType.encrypted (snd kv)));
                    ("delete_on_termination",
                     jval_of_pyval
                       (BlockDeviceType.delete_on_termination (snd kv)))])) m)
      | None => JDict []
      end
  | None => JDict []
  end.

Definition get_ami_info (image : Image.t) : M W kwargs :=
  let* i := get_id image in
  ret (<["image_id" := JStr i]>
      (<["state" := JStr (Image.state image)]>
      (<["architecture" := Image.architecture image]>
      (<["block_device_mapping" := get_block_device_mapping (Some image)]>
      (<["creationDate" := Image.creationDate image]>
      (<["description" := Image.description image]>
      (<["hypervisor" := Image.hypervisor image]>
      (<["is_public" := Image.is_public image]>
      (<["location" := Image.location image]>
      (<["ownerId" := Image.ownerId image]>
      (<["root_device_name" := Image.root_device_name image]>
      (<["root_device_type" := Image.root_device_type image]>
      (<["tags" := Image.tags image]>
      (<["virtualization_type" := Image.virtualization_type image]> ∅)))))))))))))).

(** *** create_image *)

(** Lines 461-468: the loop that fills the [BlockDeviceMapping].  The
    loop touches no collaborator; [None] is the iteration that finds a
    device without [device_name] and calls [fail_json]. *)
Fixpoint build_bdm (devices : list device) (m : bdm) : option bdm :=
  match devices with
  | [] => Some m
  | d :: rest =>
      match d !! "device_name" with
      | None => None
      | Some device_name =>
          build_bdm rest (bdm_set device_name (delete "device_name" d) m)
      end
  end.

(** Lines 460-470: the mapping added to both parameter dictionaries, if
    the request has a non-empty [device_mapping]. *)
Definition request_mapping (p : params) : option (option bdm) :=
  match device_mapping p with
  | Some (d :: ds) =>
      match build_bdm (d :: ds) [] with
      | Some m => Some (Some m)
      | None => None
      end
  | _ => Some None
  end.

(** The dictionaries [params] and [register_params], with the mapping
    added to both when the request has one. *)
Definition create_params (p : params) (mapping : option bdm) : create_kwargs :=
  {| c_instance_id := instance_id p;
     c_name := name p;
     c_description := description p;
     c_no_reboot := no_reboot p;
     c_block_device_mapping := mapping |}.

Definition register_params (p : params) (mapping : option bdm) : register_kwargs :=
  {| r_snapshot_id := snapshot_id p;
     r_root_device_name := root_device_name p;
     r_kernel_id := kernel_id p;
     r_virtualization_type := virtualization_type p;
     r_name := name p;
     r_image_location := image_location p;
     r_delete_root_volume_on_termination := delete_root_volume_on_termination p;
     r_sriov_net_support := sriov_net_support p;
     r_block_device_mapping := mapping |}.

(** Lines 440-478: the lookup by name and the creating calls.  The value
    is the local variable [image_id] as the [try] block leaves it. *)
Definition create_image_calls (p : params) : M W (local string) :=
  try_except
    (let* images := remote (CallGetAllImages (name p))
                           (Ec2.get_all_images ec2 (name p)) in
     let* _ := match images with
               | i :: _ =>
                   let* iid := get_id i in
                   exit_json (name_present iid (Image.state i))
               | [] => ret tt
               end in
     let* mapping := match request_mapping p with
                     | Some m => ret m
                     | None => fail_json (msg_only "Device name must be set for volume")
                     end in
     let* image_id := if truthy (instance_id p)
                      then
                        let* r := remote
                                    (CallCreateImage (create_params p mapping))
                                    (Ec2.create_image ec2 (create_params p mapping)) in
                        ret (Bound r)
                      else ret Unbound in
     if truthy (snapshot_id p)
     then
       let* r := remote (CallRegisterImage (register_params p mapping))
                        (Ec2.register_image ec2 (register_params p mapping)) in
       ret (Bound r)
     else ret image_id)
    BotoServerError
    (fun e => fail_json (msg_only (boto_msg e))).

(** Lines 484-493: one iteration [i] of the polling loop; [img] is the
    local variable as the previous iterations left it. *)
Definition poll_once (p : params) (image_id : local string) (i : Z)
    (img : local (option Image.t)) : M W (loop_ctl * local (option Image.t)) :=
  try_finally
    (try_except
       (let* iid := read_local "image_id" image_id in
        let* im := remote (CallGetImage (Some iid))
                          (Ec2.get_image ec2 (Some iid)) in
        let* s := get_state im in
        if String.eqb s "available"
        then ret (Break, Bound im)
        else ret (Continue, Bound im))
       EC2ResponseError
       (fun e =>
          if negb (contains "InvalidAMIID.NotFound" (error_code e))
             && negb (contains "InvalidAMIID.Unavailable" (error_code e))
             && wait p && (i =? wait_timeout p - 1)
          then fail_json (msg_only (find_msg +:+ " " +:+ boto_msg e))
          else ret (Continue, img)))
    (time_sleep 1).

(** Line 483: [for i in range(wait_timeout)], run over the indices left. *)
Fixpoint poll (p : params) (image_id : local string) (indices : list Z)
    (img : local (option Image.t)) : M W (local (option Image.t)) :=
  match indices with
  | [] => ret img
  | i :: rest =>
      let* r := poll_once p image_id i img in
      match fst r with
      | Break => ret (snd r)
      | Continue => poll p image_id rest (snd r)
      end
  end.

(** Lines 483-496: the polling loop and the check that follows it. *)
Definition create_image_wait (p : params) (image_id : local string)
    : M W Image.t :=
  let* img := poll p image_id (range (wait_timeout p)) Unbound in
  let* im := read_local "img" img in
  match im with
  | Some i =>
      if negb (String.eqb (Image.state i) "available")
      then fail_json (msg_only find_msg)
      else ret i
  | None => raise (AttributeError "state")
  end.

(** Lines 498-502: the tags.  *)
Definition apply_tags (p : params) (image_id : local string) : M W unit :=
  match tags p with
  | Some t =>
      if negb (bool_decide (t = ∅))
      then
        try_except
          (let* iid := read_local "image_id" image_id in
           remote (CallCreateTags (Some iid) t)
                  (Ec2.create_tags ec2 (Some iid) t))
          EC2ResponseError
          (fun e => fail_json
             (msg_only ("Image tagging failed => " +:+ boto_msg e)))
      else ret tt
  | None => ret tt
  end.

(** Lines 503-508: the launch permissions.  The value is the local
    variable [img], fetched again when permissions were requested. *)
Definition apply_launch_permissions (p : params) (image_id : local string)
    (img : Image.t) : M W Image.t :=
  match launch_permissions p with
  | Some lp =>
      if negb (bool_decide (lp = ∅))
      then
        try_except
          (let* iid := read_local "image_id" image_id in
           let* im := remote (CallGetImage (Some iid))
                             (Ec2.get_image ec2 (Some iid)) in
           match im with
           | Some i =>
               let* _ := remote (CallSetLaunchPermissions i lp)
                                (Ec2.set_launch_permissions ec2 i lp) in
               ret i
           | None => raise (AttributeError "set_launch_permissions")
           end)
          BotoServerError
          (fun e =>
             let* iid := read_local "image_id" image_id in
             fail_json (permissions_failed e iid))
      else ret img
  | None => ret img
  end.

(** Lines 498-510: tags, launch permissions and the final report. *)
Definition create_image_finish (p : params) (image_id : local string)
    (img : Image.t) : M W unit :=
  let* _ := apply_tags p image_id in
  let* img := apply_launch_permissions p image_id img in
  let* info := get_ami_info img in
  exit_json (created info).

Definition create_image (p : params) : M W unit :=
  let* image_id := create_image_calls p in
  let* img := create_image_wait p image_id in
  create_image_finish p image_id img.

(** *** deregister_image *)

(** Lines 528-531: the snapshot ids of the image's block device mapping. *)
Definition collect_snapshots (img : Image.t) : list (option string) :=
  match Image.block_device_mapping img with
  | Some m => map (fun kv => BlockDeviceType.snapshot_id (snd kv)) m
  | None => []
  end.

(** Line 548, the loop condition
    [wait and wait_timeout > time.time() and img is not None]. *)
Definition still_waiting (p : params) (deadline : Q)
    (img : option Image.t) : M W bool :=
  if wait p
  then
    let* now := time_time in
    if negb (Qle_bool deadline now)
    then ret (match img with Some _ => true | None => false end)
    else ret false
  else ret false.

(** Lines 548-550: the while loop, unrolled at most [fuel] times. *)
Fixpoint wait_until_gone (fuel : nat) (p : params) (deadline : Q)
    (img : option Image.t) : M W (option Image.t) :=
  let* go := still_waiting p deadline img in
  if go
  then
    match fuel with
    | O => out_of_fuel
    | S fuel' =>
        let* img' := remote (CallGetImage (image_id p))
                            (Ec2.get_image ec2 (image_id p)) in
        let* _ := time_sleep 3 in
        wait_until_gone fuel' p deadline img'
    end
  else ret img.

(** Lines 559-560: [for snapshot_id in snapshots: ec2.delete_snapshot]. *)
Fixpoint delete_each (snapshots : list (option string)) : M W unit :=
  match snapshots with
  | [] => ret tt
  | sid :: rest =>
      let* _ := remote (CallDeleteSnapshot sid) (Ec2.delete_snapshot ec2 sid) in
      delete_each rest
  end.

(** Lines 557-567: the snapshot deletion phase and the final report. *)
Definition delete_phase (p : params) (snapshots : list (option string))
    : M W unit :=
  if delete_snapshot p
  then
    let* _ := try_except (delete_each snapshots) BotoServerError
                (fun e =>
                   if String.eqb (error_code e) "InvalidSnapshot.NotFound"
                   then ret tt
                   else ret tt) in
    exit_json (deregistered_with snapshots)
  else exit_json deregistered.

(** Lines 518-543: the fetch, the capture of the snapshot ids and the
    deregistering call.  The value is the list [snapshots]. *)
Definition deregister_request (p : params) : M W (list (option string)) :=
  let* img := remote (CallGetImage (image_id p))
                     (Ec2.get_image ec2 (image_id p)) in
  match img with
  | None =>
      fail_json (does_not_exist (image_id p))
  | Some i =>
      let snapshots := collect_snapshots i in
      let* _ :=
        match Image.id i with
        | Some _ =>
            try_except
              (remote (CallDeregisterImage (image_id p) (delete_snapshot p))
                      (Ec2.deregister_image ec2 (image_id p) (delete_snapshot p)))
              BotoServerError
              (fun e => fail_json (msg_only (boto_msg e)))
        | None =>
            exit_json (already_deleted (image_id p))
        end in
      ret snapshots
  end.

(** Lines 546-553: wait until the image is gone. *)
Definition deregister_wait (fuel : nat) (p : params) : M W unit :=
  let* img := remote (CallGetImage (image_id p))
                     (Ec2.get_image ec2 (image_id p)) in
  let* start := time_time in
  let deadline := (start + inject_Z (wait_timeout p))%Q in
  let* _ := wait_until_gone fuel p deadline img in
  if wait p
  then
    let* now := time_time in
    if Qle_bool deadline now
    then fail_json (msg_only timed_out_msg)
    else ret tt
  else ret tt.

Definition deregister_image (fuel : nat) (p : params) : M W unit :=
  let* snapshots := deregister_request p in
  let* _ := deregister_wait fuel p in
  delete_phase p snapshots.

(** *** update_image *)

(** Lines 577-578: every user id becomes its [str]. *)
Definition normalise_permissions (lp : perms) : perms :=
  match lp !! "user_ids" with
  | Some l => <["user_ids" := map (fun u => PStr (py_str u)) l]> lp
  | None => lp
  end.

Definition update_image (p : params) : M W unit :=
  match launch_permissions p with
  | None => raise (TypeError "argument of type 'NoneType' is not iterable")
  | Some lp0 =>
      let lp := normalise_permissions lp0 in
      let* img := remote (CallGetImage (image_id p))
                         (Ec2.get_image ec2 (image_id p)) in
      match img with
      | None =>
          fail_json (does_not_exist (image_id p))
      | Some i =>
          try_except
            (let* set_permissions :=
               remote (CallGetLaunchPermissions i)
                      (Ec2.get_launch_permissions ec2 i) in
             if negb (bool_decide (set_permissions = lp))
             then
               let* _ :=
                 if has_nonempty "user_ids" lp || has_nonempty "group_names" lp
                 then remote (CallSetLaunchPermissions i lp)
                             (Ec2.set_launch_permissions ec2 i lp)
                 else if has_nonempty "user_ids" set_permissions
                         || has_nonempty "group_names" set_permissions
                 then remote (CallRemoveLaunchPermissions i set_permissions)
                             (Ec2.remove_launch_permissions ec2 i set_permissions)
                 else exit_json (not_updated set_permissions) in
               exit_json (updated lp set_permissions)
             else exit_json (not_updated set_permissions))
            BotoServerError
            (fun e => fail_json (msg_only (boto_msg e)))
      end
  end.

(** *** main *)

Definition fail_msg {A} (m : string) : M W A :=
  fail_json (msg_only m).

Definition when (b : bool) (m : M W unit) : M W unit :=
  if b then m else ret tt.

(** Lines 655-682: the checks of a request with [action == "register"]. *)
Definition register_checks (p : params) : M W unit :=
  let* _ := when (negb (truthy (virtualization_type p)))
              (fail_msg "virtualization_type is required for new image") in
  let* _ := when (negb (bool_decide
                    (virtualization_type p ∈ [Some "paravirtual"; Some "hvm"])))
              (fail_msg "virtualization_type must be either paravirtual or hvm") in
  let* _ := when (negb (truthy (snapshot_id p))
                  && negb (truthy_list (device_mapping p)))
              (fail_msg "either snapshot_id or device_mapping is required for new image") in
  let* _ := when (truthy (snapshot_id p) && truthy_list (device_mapping p))
              (fail_msg "device_mapping is mutually exclusive with snapshot_id") in
  let* _ := when (negb (bool_decide (architecture p ∈ ["x86_64"; "i386"])))
              (fail_msg "architecture must be eith x86_64 or i386") in
  let* _ := when (delete_root_volume_on_termination p
                  && negb (truthy (snapshot_id p)))
              (fail_msg "snapshot_id is required when using delete_root_volume_on_termination") in
  when (truthy (sriov_net_support p)
        && negb (bool_decide (sriov_net_support p ∈ [None; Some "simple"])))
    (fail_msg "sriov_net_support must be simple or not set").

(** [HAS_BOTO] says whether [import boto] succeeded; [connect_error] is
    [None] when [ec2_connect(module)] returned the connection [ec2], and
    the text of the exception it raised otherwise. *)
Definition main (HAS_BOTO : bool) (connect_error : option string)
    (fuel : nat) (p : params) : M W unit :=
  let* _ := when (negb HAS_BOTO) (fail_msg "boto required for this module") in
  let* _ := match connect_error with
            | Some e => fail_msg ("Error while connecting to aws: " +:+ e)
            | None => ret tt
            end in
  if String.eqb (state p) "absent"
  then
    let* _ := when (negb (truthy (image_id p)))
                (fail_msg "image_id needs to be an ami image to registered/delete") in
    deregister_image fuel p
  else if String.eqb (state p) "present"
  then
    let* _ := when (truthy (image_id p) && truthy_dict (launch_permissions p))
                (update_image p) in
    let* _ := when (negb (bool_decide (action p ∈ ["create"; "register"])))
                (fail_msg "action must be create or register") in
    let* _ := when (String.eqb (action p) "create")
                (when (negb (truthy (instance_id p)))
                   (fail_msg "instance_id is required for new image")) in
    let* _ := when (String.eqb (action p) "register") (register_checks p) in
    let* _ := when (negb (truthy (name p)))
                (fail_msg "name parameter is required for new image") in
    create_image p
  else ret tt.
End Controller.

(** ** Vocabulary of the properties *)

(** The request [p] with another [action]. *)
Definition with_action (a : string) (p : params) : params :=
  {| action := a; instance_id := instance_id p; snapshot_id := snapshot_id p;
     root_device_name := root_device_name p; kernel_id := kernel_id p;
     virtualization_type := virtualization_type p;
     image_location := image_location p; architecture := architecture p;
     delete_root_volume_on_termination := delete_root_volume_on_termination p;
     sriov_net_support := sriov_net_support p; image_id := image_id p;
     delete_snapshot := delete_snapshot p; name := name p; wait := wait p;
     wait_timeout := wait_timeout p; description := description p;
     no_reboot := no_reboot p; state := state p;
     device_mapping := device_mapping p; tags := tags p;
     launch_permissions := launch_permissions p |}.

(** The message of the first register check that a request fails on
    when it names both sources or neither. *)
Definition source_rejection (p : params) : string :=
  if negb (truthy (virtualization_type p))
  then "virtualization_type is required for new image"
  else if negb (bool_decide
                  (virtualization_type p ∈ [Some "paravirtual"; Some "hvm"]))
  then "virtualization_type must be either paravirtual or hvm"
  else if truthy (snapshot_id p)
  then "device_mapping is mutually exclusive with snapshot_id"
  else "either snapshot_id or device_mapping is required for new image".

(** Calls that remove something from the registry. *)
Definition is_destructive (c : call) : bool :=
  match c with
  | CallDeregisterImage _ _ | CallDeleteSnapshot _ => true
  | _ => false
  end.

(** The calls of the steps that follow the creation of image [iid]:
    fetches and tags name [iid], the rest is sleeping and the permission
    call on the image object just fetched. *)
Definition follows_up (iid : string) (c : call) : Prop :=
  match c with
  | CallGetImage i => i = Some iid
  | CallCreateTags i _ => i = Some iid
  | CallSetLaunchPermissions _ _ => True
  | CallSleep n => n = 1
  | _ => False
  end.

(** [k] polling rounds of [create_image]: fetch, then sleep one second. *)
Fixpoint fetch_rounds (iid : string) (k : nat) : list call :=
  match k with
  | O => []
  | S k' => CallGetImage (Some iid) :: CallSleep 1 :: fetch_rounds iid k'
  end.

(** The rounds of the waiting loop of [deregister_image], one for each
    clock reading that let the loop go on: the reading, the fetch, and a
    sleep of three seconds. *)
Definition wait_rounds (image_id : option string) (readings : list Q) : list call :=
  flat_map (fun t => [CallTime t; CallGetImage image_id; CallSleep 3]) readings.

(** Two readings of the clock with nothing in between do not go back. *)
Definition steady {W} (clock : time.clock W) : Prop :=
  forall w t w' t' w'',
    time.time clock w = (t, w') -> time.time clock w' = (t', w'') ->
    (t <= t')%Q.

(** A clock that ticks.  [now w] is the time in world [w]: a reading lies
    between the time before and the time after it, a sleep moves the time
    on by at least its duration, and a fetch does not set it back. *)
Record ticking {W} (ec2 : Ec2.connection W) (clock : time.clock W)
    (now : W -> Q) : Prop := {
  reading :
    forall w t w', time.time clock w = (t, w') ->
      (now w <= t)%Q /\ (t <= now w')%Q;
  sleeping :
    forall n w, (now w + inject_Z n <= now (time.sleep clock n w))%Q;
  fetching :
    forall i w r w', Ec2.get_image ec2 i w = (r, w') -> (now w <= now w')%Q
}.

(** A registry that keeps its images.  [held n w] says that in world [w]
    an image is registered under the name [n]: then a lookup by [n] lists
    one, every listed image has its identifier, a successful create or
    register call leaves the new name held, and no call of the creation
    workflow, nor sleeping, makes a held name go away. *)
Record keeping {W} (ec2 : Ec2.connection W) (clock : time.clock W)
    (held : option string -> W -> Prop) : Prop := {
  held_listed :
    forall n w, held n w ->
      exists i rest w', Ec2.get_all_images ec2 n w = (Ok (i :: rest), w');
  listed_held :
    forall n w i rest w',
      Ec2.get_all_images ec2 n w = (Ok (i :: rest), w') -> held n w';
  listed_id :
    forall n w i rest w',
      Ec2.get_all_images ec2 n w = (Ok (i :: rest), w') ->
      exists iid, Image.id i = Some iid;
  created_held :
    forall kw w iid w',
      Ec2.create_image ec2 kw w = (Ok iid, w') -> held (c_name kw) w';
  registered_held :
    forall kw w iid w',
      Ec2.register_image ec2 kw w = (Ok iid, w') -> held (r_name kw) w';
  register_keeps :
    forall n kw w r w',
      Ec2.register_image ec2 kw w = (r, w') -> held n w -> held n w';
  fetch_keeps :
    forall n i w r w',
      Ec2.get_image ec2 i w = (r, w') -> held n w -> held n w';
  tags_keep :
    forall n i t w r w',
      Ec2.create_tags ec2 i t w = (r, w') -> held n w -> held n w';
  permissions_keep :
    forall n i lp w r w',
      Ec2.set_launch_permissions ec2 i lp w = (r, w') -> held n w -> held n w';
  sleep_keeps :
    forall n k w, held n w -> held n (time.sleep clock k w)
}.

(** Calls that create an image. *)
Definition is_creation (c : call) : bool :=
  match c with
  | CallCreateImage _ | CallRegisterImage _ => true
  | _ => false
  end.

(** Calls that change the registry in any way. *)
Definition is_change (c : call) : bool :=
  match c with
  | CallCreateImage _ | CallRegisterImage _ | CallCreateTags _ _
  | CallSetLaunchPermissions _ _ | CallRemoveLaunchPermissions _ _
  | CallDeregisterImage _ _ | CallDeleteSnapshot _ => true
  | _ => false
  end.

(** The calls of a deregistration of image [iid]: fetches and the
    deregistering call name [iid], sleeps last three seconds, and the rest
    is clock readings and snapshot deletions. *)
Definition deregisters (iid : option string) (c : call) : Prop :=
  match c with
  | CallGetImage i => i = iid
  | CallDeregisterImage i _ => i = iid
  | CallDeleteSnapshot _ => True
  | CallTime _ => True
  | CallSleep n => n = 3
  | _ => False
  end.

(** The conditions under which the checks of lines 655-682 all pass. *)
Definition valid_register (p : params) : bool :=
  truthy (virtualization_type p)
  && bool_decide (virtualization_type p ∈ [Some "paravirtual"; Some "hvm"])
  && (truthy (snapshot_id p) || truthy_list (device_mapping p))
  && negb (truthy (snapshot_id p) && truthy_list (device_mapping p))
  && bool_decide (architecture p ∈ ["x86_64"; "i386"])
  && (negb (delete_root_volume_on_termination p) || truthy (snapshot_id p))
  && (negb (truthy (sriov_net_support p))
      || bool_decide (sriov_net_support p ∈ [None; Some "simple"])).

(** The conditions under which a request with [state=present] that is
    not a permission update reaches [create_image] (lines 647-686). *)
Definition accepted (p : params) : bool :=
  bool_decide (action p ∈ ["create"; "register"])
  && (negb (String.eqb (action p) "create") || truthy (instance_id p))
  && (negb (String.eqb (action p) "register") || valid_register p)
  && truthy (name p).

(** The creating calls a request plans, in the order of lines 472-475:
    the create call if it names an instance, then the register call if it
    names a snapshot, both with the block device mapping of the request.
    A request whose device mapping is refused plans none. *)
Definition planned_creations (p : params) : list call :=
  match request_mapping p with
  | Some mapping =>
      (if truthy (instance_id p)
       then [CallCreateImage (create_params p mapping)] else [])
      ++ (if truthy (snapshot_id p)
          then [CallRegisterImage (register_params p mapping)] else [])
  | None => []
  end.

(** The messages of the checks of [main] for [state=present]. *)
Definition rejections : list string :=
  ["action must be create or register";
   "instance_id is required for new image";
   "virtualization_type is required for new image";
   "virtualization_type must be either paravirtual or hvm";
   "either snapshot_id or device_mapping is required for new image";
   "device_mapping is mutually exclusive with snapshot_id";
   "architecture must be eith x86_64 or i386";
   "snapshot_id is required when using delete_root_volume_on_termination";
   "sriov_net_support must be simple or not set";
   "name parameter is required for new image"].

(** ** A test double of the collaborators

    A small registry and clock over which the controller can be run on
    concrete requests.  Images are kept with the name they were created
    under; [get_image] first plays back the scripted answers [polls], then
    looks the identifier up; the clock only moves when the module sleeps.
    An image without [id] stands for one that was deleted before. *)

Module Toy.
Record world := {
  images : list (option string * Image.t);
  now : Q;
  permissions : perms;
  polls : list (result (option Image.t));
  create_error : option boto_exception;
  tags_error : option boto_exception;
  permissions_error : option boto_exception;
  snapshot_error : option boto_exception;
  lingering : bool
}.

Definition with_images (l : list (option string * Image.t)) (w : world) : world :=
  {| images := l; now := now w; permissions := permissions w;
     polls := polls w; create_error := create_error w;
     tags_error := tags_error w;
     permissions_error := permissions_error w;
     snapshot_error := snapshot_error w; lingering := lingering w |}.

Definition with_now (t : Q) (w : world) : world :=
  {| images := images w; now := t; permissions := permissions w;
     polls := polls w; create_error := create_error w;
     tags_error := tags_error w;
     permissions_error := permissions_error w;
     snapshot_error := snapshot_error w; lingering := lingering w |}.

Definition with_permissions (d : perms) (w : world) : world :=
  {| images := images w; now := now w; permissions := d;
     polls := polls w; create_error := create_error w;
     tags_error := tags_error w;
     permissions_error := permissions_error w;
     snapshot_error := snapshot_error w; lingering := lingering w |}.

Definition with_polls (l : list (result (option Image.t))) (w : world) : world :=
  {| images := images w; now := now w; permissions := permissions w;
     polls := l; create_error := create_error w;
     tags_error := tags_error w;
     permissions_error := permissions_error w;
     snapshot_error := snapshot_error w; lingering := lingering w |}.

Definition image (i : string) (s : string)
    (m : option (list (string * BlockDeviceType.t))) : Image.t :=
  {| Image.id := Some i; Image.state := s; Image.block_device_mapping := m;
     Image.architecture := JNone; Image.creationDate := JNone;
     Image.description := JNone; Image.hypervisor := JNone;
     Image.is_public := JNone; Image.location := JNone;
     Image.ownerId := JNone; Image.root_device_name := JNone;
     Image.root_device_type := JNone; Image.tags := JNone;
     Image.virtualization_type := JNone |}.

Definition ebs (snap : option string) : BlockDeviceType.t :=
  {| BlockDeviceType.size := PInt 8;
     BlockDeviceType.snapshot_id := snap;
     BlockDeviceType.volume_type := PStr "gp2";
     BlockDeviceType.encrypted := PBool false;
     BlockDeviceType.delete_on_termination := PBool true |}.

Definition has_id (i : option string) (e : option string * Image.t) : bool :=
  bool_decide (Image.id (snd e) = i).

(** The images listed under a name: those registered with it that still
    have their attributes. *)
Definition named (n : option string) (e : option string * Image.t) : bool :=
  bool_decide (fst e = n)
  && match Image.id (snd e) with Some _ => true | None => false end.

Definition fresh (prefix : string) (w : world) : string :=
  prefix +:+ pretty (Z.of_nat (length (images w))).

Definition answer (e : option boto_exception) : result unit :=
  match e with
  | Some x => Err x
  | None => Ok tt
  end.

Definition ec2 : Ec2.connection world :=
  {| Ec2.get_all_images := fun n w =>
       (Ok (map snd (List.filter (named n) (images w))), w);
     Ec2.get_image := fun i w =>
       match polls w with
       | r :: rest => (r, with_polls rest w)
       | [] => (Ok (option_map snd (List.find (has_id i) (images w))), w)
       end;
     Ec2.create_image := fun kw w =>
       match create_error w with
       | Some e => (Err e, w)
       | None =>
           (Ok (fresh "ami-c" w),
            with_images (images w ++
              [(c_name kw, image (fresh "ami-c" w) "available" None)]) w)
       end;
     Ec2.register_image := fun kw w =>
       (Ok (fresh "ami-r" w),
        with_images (images w ++
          [(r_name kw, image (fresh "ami-r" w) "available" None)]) w);
     Ec2.create_tags := fun _ _ w => (answer (tags_error w), w);
     Ec2.get_launch_permissions := fun _ w => (Ok (permissions w), w);
     Ec2.set_launch_permissions := fun _ d w =>
       match permissions_error w with
       | Some e => (Err e, w)
       | None => (Ok tt, with_permissions d w)
       end;
     Ec2.remove_launch_permissions := fun _ _ w =>
       match permissions_error w with
       | Some e => (Err e, w)
       | None => (Ok tt, with_permissions ∅ w)
       end;
     Ec2.deregister_image := fun i _ w =>
       (Ok tt,
        if lingering w then w
        else with_images (List.filter (fun e => negb (has_id i e)) (images w)) w);
     Ec2.delete_snapshot := fun _ w => (answer (snapshot_error w), w) |}.

Definition clock : time.clock world :=
  {| time.time := fun w => (now w, w);
     time.sleep := fun n w => with_now (now w + inject_Z n)%Q w |}.

(** An empty registry at time 0. *)
Definition empty : world :=
  {| images := []; now := 0%Q; permissions := ∅; polls := [];
     create_error := None; tags_error := None; permissions_error := None;
     snapshot_error := None; lingering := false |}.

(** *** Concrete requests and worlds *)

Definition sdb : device :=
  {[ "device_name" := PStr "/dev/sdb"; "no_device" := PBool true ]}.

(** Create an image named web from instance i-1, polling at most twice. *)
Definition create_web : params :=
  {| action := "create"; instance_id := Some "i-1"; snapshot_id := None;
     root_device_name := None; kernel_id := None;
     virtualization_type := None; image_location := None;
     architecture := "x86_64"; delete_root_volume_on_termination := false;
     sriov_net_support := None; image_id := None; delete_snapshot := false;
     name := Some "web"; wait := false; wait_timeout := 2;
     description := ""; no_reboot := false; state := "present";
     device_mapping := None; tags := None; launch_permissions := None |}.

(** The same, with a tag. *)
Definition create_web_tagged : params :=
  {| action := "create"; instance_id := Some "i-1"; snapshot_id := None;
     root_device_name := None; kernel_id := None;
     virtualization_type := None; image_location := None;
     architecture := "x86_64"; delete_root_volume_on_termination := false;
     sriov_net_support := None; image_id := None; delete_snapshot := false;
     name := Some "web"; wait := false; wait_timeout := 2;
     description := ""; no_reboot := false; state := "present";
     device_mapping := None; tags := Some {[ "Env" := "devel" ]};
     launch_permissions := None |}.

(** The same, with launch permissions for one account. *)
Definition create_web_shared : params :=
  {| action := "create"; instance_id := Some "i-1"; snapshot_id := None;
     root_device_name := None; kernel_id := None;
     virtualization_type := None; image_location := None;
     architecture := "x86_64"; delete_root_volume_on_termination := false;
     sriov_net_support := None; image_id := None; delete_snapshot := false;
     name := Some "web"; wait := false; wait_timeout := 2;
     description := ""; no_reboot := false; state := "present";
     device_mapping := None; tags := None;
     launch_permissions := Some {[ "user_ids" := [PStr "111"] ]} |}.

(** Create with both an instance and a snapshot named. *)
Definition create_web_both : params :=
  {| action := "create"; instance_id := Some "i-1";
     snapshot_id := Some "snap-1"; root_device_name := None;
     kernel_id := None; virtualization_type := None;
     image_location := None; architecture := "x86_64";
     delete_root_volume_on_termination := false; sriov_net_support := None;
     image_id := None; delete_snapshot := false; name := Some "web";
     wait := false; wait_timeout := 2; description := "";
     no_reboot := false; state := "present"; device_mapping := None;
     tags := None; launch_permissions := None |}.

(** Register from a device mapping alone. *)
Definition register_mapping : params :=
  {| action := "register"; instance_id := None; snapshot_id := None;
     root_device_name := None; kernel_id := None;
     virtualization_type := Some "hvm"; image_location := None;
     architecture := "x86_64"; delete_root_volume_on_termination := false;
     sriov_net_support := None; image_id := None; delete_snapshot := false;
     name := Some "web"; wait := false; wait_timeout := 2;
     description := ""; no_reboot := false; state := "present";
     device_mapping := Some [sdb]; tags := None;
     launch_permissions := None |}.

(** Register from a device mapping, an instance being named too. *)
Definition register_mapping_instance : params :=
  {| action := "register"; instance_id := Some "i-1"; snapshot_id := None;
     root_device_name := None; kernel_id := None;
     virtualization_type := Some "hvm"; image_location := None;
     architecture := "x86_64"; delete_root_volume_on_termination := false;
     sriov_net_support := None; image_id := None; delete_snapshot := false;
     name := Some "web"; wait := false; wait_timeout := 2;
     description := ""; no_reboot := false; state := "present";
     device_mapping := Some [sdb]; tags := None;
     launch_permissions := None |}.

(** Register with both a snapshot and a device mapping. *)
Definition register_both : params :=
  {| action := "register"; instance_id := None;
     snapshot_id := Some "snap-1"; root_device_name := None;
     kernel_id := None; virtualization_type := Some "hvm";
     image_location := None; architecture := "x86_64";
     delete_root_volume_on_termination := false; sriov_net_support := None;
     image_id := None; delete_snapshot := false; name := Some "web";
     wait := false; wait_timeout := 900; description := "";
     no_reboot := false; state := "present"; device_mapping := Some [sdb];
     tags := None; launch_permissions := None |}.

(** Deregister image ami-1 without waiting. *)
Definition deregister : params :=
  {| action := "create"; instance_id := None; snapshot_id := None;
     root_device_name := None; kernel_id := None;
     virtualization_type := None; image_location := None;
     architecture := "x86_64"; delete_root_volume_on_termination := false;
     sriov_net_support := None; image_id := Some "ami-1";
     delete_snapshot := false; name := None; wait := false;
     wait_timeout := 900; description := ""; no_reboot := false;
     state := "absent"; device_mapping := None; tags := None;
     launch_permissions := None |}.

(** Deregister image ami-1 and delete its snapshots. *)
Definition deregister_snapshots : params :=
  {| action := "create"; instance_id := None; snapshot_id := None;
     root_device_name := None; kernel_id := None;
     virtualization_type := None; image_location := None;
     architecture := "x86_64"; delete_root_volume_on_termination := false;
     sriov_net_support := None; image_id := Some "ami-1";
     delete_snapshot := true; name := None; wait := false;
     wait_timeout := 900; description := ""; no_reboot := false;
     state := "absent"; device_mapping := None; tags := None;
     launch_permissions := None |}.

(** Deregister image ami-1 and wait five seconds for it to go. *)
Definition deregister_waiting : params :=
  {| action := "create"; instance_id := None; snapshot_id := None;
     root_device_name := None; kernel_id := None;
     virtualization_type := None; image_location := None;
     architecture := "x86_64"; delete_root_volume_on_termination := false;
     sriov_net_support := None; image_id := Some "ami-1";
     delete_snapshot := false; name := None; wait := true;
     wait_timeout := 5; description := ""; no_reboot := false;
     state := "absent"; device_mapping := None; tags := None;
     launch_permissions := None |}.

(** Grant launch permissions on ami-1 to account 111. *)
Definition share : params :=
  {| action := "create"; instance_id := None; snapshot_id := None;
     root_device_name := None; kernel_id := None;
     virtualization_type := None; image_location := None;
     architecture := "x86_64"; delete_root_volume_on_termination := false;
     sriov_net_support := None; image_id := Some "ami-1";
     delete_snapshot := false; name := None; wait := false;
     wait_timeout := 900; description := ""; no_reboot := false;
     state := "present"; device_mapping := None; tags := None;
     launch_permissions := Some {[ "user_ids" := [PInt 111] ]} |}.

Definition not_found : boto_exception :=
  {| exc_class := EC2ResponseError;
     error_code := "InvalidAMIID.NotFound";
     error_message := "The image id does not exist" |}.

Definition unauthorized : boto_exception :=
  {| exc_class := EC2ResponseError;
     error_code := "UnauthorizedOperation";
     error_message := "You are not authorized to perform this operation." |}.

Definition ami1 : Image.t :=
  image "ami-1" "available"
    (Some [("/dev/sda1", ebs (Some "snap-1")); ("/dev/sdb", ebs (Some "snap-2"))]).

(** A registry that holds ami-1 under the name web. *)
Definition one_image : world := with_images [(Some "web", ami1)] empty.

(** The same, where snapshots cannot be deleted. *)
Definition protected_snapshots : world :=
  {| images := [(Some "web", ami1)]; now := 0%Q; permissions := ∅;
     polls := []; create_error := None; tags_error := None;
     permissions_error := None; snapshot_error := Some unauthorized;
     lingering := false |}.

(** The same, where a deregistered image stays retrievable. *)
Definition slow_registry : world :=
  {| images := [(Some "web", ami1)]; now := 0%Q; permissions := ∅;
     polls := []; create_error := None; tags_error := None;
     permissions_error := None; snapshot_error := None;
     lingering := true |}.

(** An empty registry whose next two fetches do not find the image. *)
Definition not_yet_visible : world :=
  with_polls [Err not_found; Err not_found] empty.

(** An empty registry that refuses tags, and one that refuses launch
    permissions. *)
Definition no_tags : world :=
  {| images := []; now := 0%Q; permissions := ∅; polls := [];
     create_error := None; tags_error := Some unauthorized;
     permissions_error := None; snapshot_error := None;
     lingering := false |}.

Definition no_sharing : world :=
  {| images := []; now := 0%Q; permissions := ∅; polls := [];
     create_error := None; tags_error := None;
     permissions_error := Some unauthorized; snapshot_error := None;
     lingering := false |}.

(** A first creation of web in the empty registry. *)
Definition first : res unit * st world :=
  create_image ec2 clock create_web (empty, []).

(** The creation of web where tags are refused: the states after the
    creating call and after the polling. *)
Definition created_image : Image.t := image "ami-c0" "available" None.

Definition tagged : st world := (no_tags, []).

Definition tagged1 : st world :=
  snd (create_image_calls ec2 create_web_tagged tagged).

Definition tagged2 : st world :=
  snd (create_image_wait ec2 clock create_web_tagged (Bound "ami-c0") tagged1).

(** The same where launch permissions are refused. *)
Definition shared : st world := (no_sharing, []).

Definition shared1 : st world :=
  snd (create_image_calls ec2 create_web_shared shared).

Definition shared2 : st world :=
  snd (create_image_wait ec2 clock create_web_shared (Bound "ami-c0") shared1).

(** The registry after the create call, and after the register call, of
    a request that names both sources. *)
Definition created_world : world :=
  snd (Ec2.create_image ec2 (create_params create_web_both None) empty).

Definition registered_world : world :=
  snd (Ec2.register_image ec2 (register_params create_web_both None)
         created_world).

(** The deregistration of ami-1 in the slow registry: the state after
    the deregistering call, and after the waiting loop. *)
Definition requested : st world :=
  snd (deregister_request ec2 deregister_waiting (slow_registry, [])).

Definition waited : st world :=
  snd (wait_until_gone ec2 clock 2 deregister_waiting (0 + inject_Z 5)%Q
         (Some ami1)
         (slow_registry,
          snd requested ++ [CallGetImage (Some "ami-1"); CallTime 0])).

(** The registry lists an image under the name [n]. *)
Definition held (n : option string) (w : world) : Prop :=
  List.filter (named n) (images w) <> [].

(** [main] with boto present and the connection made, from an empty
    log. *)
Definition run (fuel : nat) (p : params) (w : world) : res unit * st world :=
  main ec2 clock true None fuel p (w, []).
(** *** More requests and worlds *)

Definition with_state (x : string) (p : params) : params :=
  {| action := action p; instance_id := instance_id p;
     snapshot_id := snapshot_id p; root_device_name := root_device_name p;
     kernel_id := kernel_id p; virtualization_type := virtualization_type p;
     image_location := image_location p; architecture := architecture p;
     delete_root_volume_on_termination := delete_root_volume_on_termination p;
     sriov_net_support := sriov_net_support p; image_id := image_id p;
     delete_snapshot := delete_snapshot p; name := name p; wait := wait p;
     wait_timeout := wait_timeout p; description := description p;
     no_reboot := no_reboot p; state := x;
     device_mapping := device_mapping p; tags := tags p;
     launch_permissions := launch_permissions p |}.

Definition with_wait_timeout (n : Z) (p : params) : params :=
  {| action := action p; instance_id := instance_id p;
     snapshot_id := snapshot_id p; root_device_name := root_device_name p;
     kernel_id := kernel_id p; virtualization_type := virtualization_type p;
     image_location := image_location p; architecture := architecture p;
     delete_root_volume_on_termination := delete_root_volume_on_termination p;
     sriov_net_support := sriov_net_support p; image_id := image_id p;
     delete_snapshot := delete_snapshot p; name := name p; wait := wait p;
     wait_timeout := n; description := description p;
     no_reboot := no_reboot p; state := state p;
     device_mapping := device_mapping p; tags := tags p;
     launch_permissions := launch_permissions p |}.

Definition with_device_mapping (l : list device) (p : params) : params :=
  {| action := action p; instance_id := instance_id p;
     snapshot_id := snapshot_id p; root_device_name := root_device_name p;
     kernel_id := kernel_id p; virtualization_type := virtualization_type p;
     image_location := image_location p; architecture := architecture p;
     delete_root_volume_on_termination := delete_root_volume_on_termination p;
     sriov_net_support := sriov_net_support p; image_id := image_id p;
     delete_snapshot := delete_snapshot p; name := name p; wait := wait p;
     wait_timeout := wait_timeout p; description := description p;
     no_reboot := no_reboot p; state := state p;
     device_mapping := Some l; tags := tags p;
     launch_permissions := launch_permissions p |}.

(** The request for web with a state that is neither present nor
    absent; without any polling; with a second device that has no
    name; with the device /dev/sdb given twice. *)
Definition stop_web : params := with_state "stopped" create_web.

Definition create_web_at_once : params := with_wait_timeout 0 create_web.

Definition unnamed : device := {[ "no_device" := PBool true ]}.

Definition create_web_unnamed : params :=
  with_device_mapping [sdb; unnamed] create_web.

Definition sdb_again : device :=
  {[ "device_name" := PStr "/dev/sdb"; "volume_size" := PInt 8 ]}.

(** Deregister ami-1 and wait, with no time allowed. *)
Definition deregister_at_once : params :=
  with_wait_timeout 0 deregister_waiting.

(** What a fetch returns for an image deleted before: an object without
    the attributes of an image. *)
Definition ghost : Image.t :=
  {| Image.id := None; Image.state := ""; Image.block_device_mapping := None;
     Image.architecture := JNone; Image.creationDate := JNone;
     Image.description := JNone; Image.hypervisor := JNone;
     Image.is_public := JNone; Image.location := JNone;
     Image.ownerId := JNone; Image.root_device_name := JNone;
     Image.root_device_type := JNone; Image.tags := JNone;
     Image.virtualization_type := JNone |}.

Definition already_gone : world := with_polls [Ok (Some ghost)] empty.

(** Registries whose next fetch raises, answers [None], or finds the
    new image pending, twice. *)
Definition unreachable : world := with_polls [Err unauthorized] one_image.

Definition answers_none : world := with_polls [Ok None] empty.

Definition pending_image : Image.t := image "ami-c0" "pending" None.

Definition still_pending : world :=
  with_polls [Ok (Some pending_image); Ok (Some pending_image)] empty.

(** An empty registry that refuses to create images. *)
Definition no_creation : world :=
  {| images := []; now := 0%Q; permissions := ∅; polls := [];
     create_error := Some unauthorized; tags_error := None;
     permissions_error := None; snapshot_error := None;
     lingering := false |}.

(** A connection that refuses what [ec2] grants: the lookup by name,
    the reading of launch permissions and the deregistration. *)
Definition refusing : Ec2.connection world :=
  {| Ec2.get_all_images := fun _ w => (Err unauthorized, w);
     Ec2.get_image := Ec2.get_image ec2;
     Ec2.create_image := Ec2.create_image ec2;
     Ec2.register_image := Ec2.register_image ec2;
     Ec2.create_tags := Ec2.create_tags ec2;
     Ec2.get_launch_permissions := fun _ w => (Err unauthorized, w);
     Ec2.set_launch_permissions := Ec2.set_launch_permissions ec2;
     Ec2.remove_launch_permissions := Ec2.remove_launch_permissions ec2;
     Ec2.deregister_image := fun _ _ w => (Err unauthorized, w);
     Ec2.delete_snapshot := Ec2.delete_snapshot ec2 |}.

(** The first creation of web: the state after the creating call. *)
Definition first1 : st world :=
  snd (create_image_calls ec2 create_web (empty, [])).

(** The polling phase where the new image stays pending. *)
Definition pending : res Image.t * st world :=
  create_image_wait ec2 clock create_web (Bound "ami-c0") (still_pending, []).
End Toy.

(** * Properties *)

(** ** Running the monad *)

Section MonadFacts.
Context {W : Type}.

Lemma bind_Val {A B} (m : M W A) (k : A -> M W B) s a s' :
  m s = (Val a, s') -> bind m k s = k a s'.
Proof. intros H. unfold bind. now rewrite H. Qed.

Lemma bind_Exc {A B} (m : M W A) (k : A -> M W B) s e s' :
  m s = (Exc e, s') -> bind m k s = (Exc e, s').
Proof. intros H. unfold bind. now rewrite H. Qed.

Lemma bind_Fuel {A B} (m : M W A) (k : A -> M W B) s s' :
  m s = (Fuel, s') -> bind m k s = (Fuel, s').
Proof. intros H. unfold bind. now rewrite H. Qed.

Lemma remote_Ok {A} c (f : W -> result A * W) s a w :
  f (fst s) = (Ok a, w) -> remote c f s = (Val a, (w, snd s ++ [c])).
Proof. intros H. unfold remote. now rewrite H. Qed.

Lemma remote_Err {A} c (f : W -> result A * W) s e w :
  f (fst s) = (Err e, w) -> remote c f s = (Exc (Boto e), (w, snd s ++ [c])).
Proof. intros H. unfold remote. now rewrite H. Qed.

Lemma try_except_Val {A} (m : M W A) cls h s a s' :
  m s = (Val a, s') -> try_except m cls h s = (Val a, s').
Proof. intros H. unfold try_except. now rewrite H. Qed.

Lemma try_except_caught {A} (m : M W A) cls h s e s' :
  m s = (Exc (Boto e), s') -> isinstance e cls = true ->
  try_except m cls h s = h e s'.
Proof. intros H H'. unfold try_except. now rewrite H, H'. Qed.

Lemma try_except_passed {A} (m : M W A) cls h s e s' :
  m s = (Exc e, s') ->
  (forall b, e = Boto b -> isinstance b cls = false) ->
  try_except m cls h s = (Exc e, s').
Proof.
  intros H H'. unfold try_except. rewrite H.
  destruct e; try reflexivity. now rewrite (H' e).
Qed.

(** *** How the state moves

    The rules of [steps R] for a reflexive and transitive [R]: one for
    each way of building a computation. *)

Section Steps.
Variable R : relation (st W).
Context `{!PreOrder R}.

Lemma steps_ret {A} (a : A) : steps R (ret a).
Proof. intros s r s' [= <- <-]. reflexivity. Qed.

Lemma steps_raise {A} e : steps R (@raise W A e).
Proof. intros s r s' [= <- <-]. reflexivity. Qed.

Lemma steps_out_of_fuel {A} : steps R (@out_of_fuel W A).
Proof. intros s r s' [= <- <-]. reflexivity. Qed.

Lemma steps_read_local {A} var (l : local A) : steps R (read_local var l).
Proof. destruct l; [apply steps_raise | apply steps_ret]. Qed.

Lemma steps_remote {A} c (f : W -> result A * W) :
  (forall s r w, f (fst s) = (r, w) -> R s (w, snd s ++ [c])) ->
  steps R (remote c f).
Proof.
  intros Hc s r s'. unfold remote.
  destruct (f (fst s)) as [x w] eqn:E. intros [= <- <-]. eauto.
Qed.

Lemma steps_bind {A B} (m : M W A) (k : A -> M W B) :
  steps R m -> (forall a, steps R (k a)) -> steps R (bind m k).
Proof.
  intros Hm Hk s r s'. unfold bind.
  destruct (m s) as [[a | e |] s1] eqn:E; pose proof (Hm _ _ _ E) as H1.
  - intros H. etransitivity; [exact H1 | exact (Hk _ _ _ _ H)].
  - now intros [= <- <-].
  - now intros [= <- <-].
Qed.

Lemma steps_bind_ret {A B} (a : A) (k : A -> M W B) :
  steps R (k a) -> steps R (bind (ret a) k).
Proof. intros Hk s r s' H. exact (Hk s r s' H). Qed.

Lemma steps_bind_raise {A B} e (k : A -> M W B) :
  steps R (bind (raise e) k).
Proof. intros s r s' [= <- <-]. reflexivity. Qed.

Lemma steps_try_except {A} (m : M W A) cls h :
  steps R m -> (forall e, steps R (h e)) -> steps R (try_except m cls h).
Proof.
  intros Hm Hh s r s'. unfold try_except.
  destruct (m s) as [[a | e |] s1] eqn:E; pose proof (Hm _ _ _ E) as H1;
    try (now intros [= <- <-]).
  destruct e; try (now intros [= <- <-]).
  destruct (isinstance e cls); [| now intros [= <- <-]].
  intros H. etransitivity; [exact H1 | exact (Hh _ _ _ _ H)].
Qed.

Lemma steps_try_finally {A} (m : M W A) f :
  steps R m -> steps R f -> steps R (try_finally m f).
Proof.
  intros Hm Hf s r s'. unfold try_finally.
  destruct (m s) as [x s1] eqn:E. pose proof (Hm _ _ _ E) as H1.
  assert (H2 : forall r2 s2, f s1 = (r2, s2) -> R s s2).
  { intros r2 s2 E2. etransitivity; [exact H1 | exact (Hf _ _ _ E2)]. }
  destruct x as [a | e |].
  - destruct (f s1) as [[? | ? |] s2] eqn:E2; intros [= <- <-]; eauto.
  - destruct (f s1) as [[? | ? |] s2] eqn:E2; intros [= <- <-]; eauto.
  - now intros [= <- <-].
Qed.
End Steps.

#[global] Instance appends_preorder (P : call -> Prop) :
  PreOrder (appends (W := W) P).
Proof.
  split.
  - intros s. exists []. split; [now rewrite app_nil_r | constructor].
  - intros s1 s2 s3 (l1 & H1 & P1) (l2 & H2 & P2).
    exists (l1 ++ l2). split.
    + now rewrite H2, H1, app_assoc.
    + now apply Forall_app.
Qed.

#[global] Instance keeps_preorder (I : W -> Prop) : PreOrder (keeps I).
Proof.
  split.
  - intros s H. exact H.
  - intros s1 s2 s3 H1 H2 H. auto.
Qed.

Lemma appends_call (P : call -> Prop) c (s : st W) w :
  P c -> appends P s (w, snd s ++ [c]).
Proof. intros Hc. exists [c]. split; [reflexivity | now repeat constructor]. Qed.

Lemma emits_remote {A} P c (f : W -> result A * W) :
  P c -> emits P (remote c f).
Proof. intros Hc. apply steps_remote. intros. now apply appends_call. Qed.

Lemma preserves_remote {A} (I : W -> Prop) c (f : W -> result A * W) :
  (forall w r w', f w = (r, w') -> I w -> I w') -> preserves I (remote c f).
Proof.
  intros Hf. apply steps_remote.
  intros s r w E H. exact (Hf _ _ _ E H).
Qed.
End MonadFacts.

(** One rule of [steps], chosen by the shape of the computation. *)
Ltac steps_step :=
  match goal with
  | |- emits _ _ => unfold emits
  | |- preserves _ _ => unfold preserves
  | |- steps _ (ret _) => apply steps_ret
  | |- steps _ (raise _) => apply steps_raise
  | |- steps _ (exit_json _) => apply steps_raise
  | |- steps _ (fail_json _) => apply steps_raise
  | |- steps _ out_of_fuel => apply steps_out_of_fuel
  | |- steps _ (read_local _ _) => apply steps_read_local
  | |- steps _ (bind (raise _) _) => apply steps_bind_raise
  | |- steps _ (bind (ret _) _) => apply steps_bind_ret
  | |- steps _ (bind _ _) => apply steps_bind; [.. | intros ?]
  | |- steps _ (try_except _ _ _) => apply steps_try_except; [.. | intros ?]
  | |- steps _ (try_finally _ _) => apply steps_try_finally
  | |- steps _ (remote _ _) => apply steps_remote
  | |- steps _ (match ?x with _ => _ end) => destruct x
  end; try exact _.

(** ** create_image: the lookup by name *)

Section Facts.
Context {W : Type}.
Variable ec2 : Ec2.connection W.
Variable clock : time.clock W.

Lemma create_image_calls_existing p s i rest w iid :
  Ec2.get_all_images ec2 (name p) (fst s) = (Ok (i :: rest), w) ->
  Image.id i = Some iid ->
  create_image_calls ec2 p s =
    (Exc (ExitJson (name_present iid (Image.state i))),
     (w, snd s ++ [CallGetAllImages (name p)])).
Proof.
  intros Hlook Hid. unfold create_image_calls.
  erewrite try_except_passed; [reflexivity | | discriminate].
  erewrite bind_Val by (apply remote_Ok; exact Hlook).
  erewrite bind_Exc; [reflexivity |].
  unfold get_id. rewrite Hid. reflexivity.
Qed.

Lemma create_image_existing p s i rest w iid :
  Ec2.get_all_images ec2 (name p) (fst s) = (Ok (i :: rest), w) ->
  Image.id i = Some iid ->
  create_image ec2 clock p s =
    (Exc (ExitJson (name_present iid (Image.state i))),
     (w, snd s ++ [CallGetAllImages (name p)])).
Proof.
  intros Hlook Hid. unfold create_image. erewrite bind_Exc; [reflexivity |].
  now apply create_image_calls_existing with (rest := rest).
Qed.

(** ** deregister_image: the image that does not exist *)

(** C1, as the code has it.  When the fetch returns nothing,
    [deregister_image] ends in [fail_json]: a failure report with the
    message "Image ... does not exist" and [changed=False].  It has
    issued the fetch and nothing else. *)
Theorem deregister_absent_image fuel p s w :
  Ec2.get_image ec2 (image_id p) (fst s) = (Ok None, w) ->
  deregister_image ec2 clock fuel p s =
    (Exc (FailJson (does_not_exist (image_id p))),
     (w, snd s ++ [CallGetImage (image_id p)]))
  /\ does_not_exist (image_id p) !! "changed" = Some (JBool false).
Proof.
  intros Hget. split; [| reflexivity].
  unfold deregister_image. erewrite bind_Exc; [reflexivity |].
  unfold deregister_request.
  erewrite bind_Val by (apply remote_Ok; exact Hget). reflexivity.
Qed.

(** ** deregister_image: the snapshot deletion phase *)

(** The list handed to the deletion phase is the one read off the image
    as it was fetched before the deregistering call. *)
Lemma deregister_request_snapshots p s i w snapshots s' :
  Ec2.get_image ec2 (image_id p) (fst s) = (Ok (Some i), w) ->
  deregister_request ec2 p s = (Val snapshots, s') ->
  snapshots = collect_snapshots i
  /\ snd s' = snd s ++ [CallGetImage (image_id p);
                        CallDeregisterImage (image_id p) (delete_snapshot p)].
Proof.
  intros Hget Hreq. unfold deregister_request in Hreq.
  erewrite bind_Val in Hreq by (apply remote_Ok; exact Hget).
  unfold bind, try_except, remote in Hreq.
  destruct (Image.id i); [| discriminate].
  cbn [fst snd] in Hreq.
  destruct (Ec2.deregister_image ec2 (image_id p) (delete_snapshot p) w)
    as [[[] | e] w']; [| discriminate].
  injection Hreq as <- <-. split; [reflexivity |].
  cbn [snd]. now rewrite <- app_assoc.
Qed.

Lemma delete_each_result snapshots s :
  exists r s', delete_each ec2 snapshots s = (r, s')
    /\ (r = Val tt \/ exists e, r = Exc (Boto e)).
Proof.
  revert s. induction snapshots as [| sid rest IH]; intros s; simpl.
  - eexists _, _. split; [reflexivity | now left].
  - unfold bind, remote.
    destruct (Ec2.delete_snapshot ec2 sid (fst s)) as [[[] | e] w'].
    + apply IH.
    + eexists _, _. split; [reflexivity | right; eauto].
Qed.

(** Once the deletion phase is reached with [delete_snapshot] set, the
    report is [changed=True] with the whole list of captured snapshot
    ids, whatever the individual deletions answered: the handler of line
    561 ends every boto error, not only "InvalidSnapshot.NotFound". *)
Lemma delete_phase_reports_all p snapshots s :
  delete_snapshot p = true ->
  exists s', delete_phase ec2 p snapshots s =
               (Exc (ExitJson (deregistered_with snapshots)), s').
Proof.
  intros Hd. unfold delete_phase. rewrite Hd.
  destruct (delete_each_result snapshots s) as (r & s' & Hr & [-> | [e ->]]).
  - exists s'. erewrite bind_Val; [reflexivity |].
    apply try_except_Val. exact Hr.
  - exists s'. erewrite bind_Val; [reflexivity |].
    erewrite try_except_caught; [| exact Hr | reflexivity].
    now destruct (String.eqb _ _).
Qed.
End Facts.

(** ** update_image *)

Section UpdateImage.
Context {W : Type}.
Variable ec2 : Ec2.connection W.
Variable clock : time.clock W.

(** C5. With the image fetched and its current permissions [cur] read,
    and [lp] the desired permissions: if [cur] equals [lp] the report is
    [changed=False] and neither a grant nor a revoke is issued; otherwise
    a non-empty [lp] is granted whole and, the call succeeding, the
    report is [changed=True]; otherwise a non-empty [cur] is revoked
    whole, with [changed=True]; otherwise the report is [changed=False]
    and nothing is issued.  A grant or revoke that fails ends in
    [fail_json] with the error. *)
Theorem update_launch_permissions p lp0 s img w1 cur w2 :
  launch_permissions p = Some lp0 ->
  Ec2.get_image ec2 (image_id p) (fst s) = (Ok (Some img), w1) ->
  Ec2.get_launch_permissions ec2 img w1 = (Ok cur, w2) ->
  let lp := normalise_permissions lp0 in
  let fetched := snd s ++ [CallGetImage (image_id p);
                           CallGetLaunchPermissions img] in
  let report (r : result unit) :=
    match r with
    | Ok _ => ExitJson (updated lp cur)
    | Err e => FailJson (msg_only (boto_msg e))
    end in
  (cur = lp ->
     update_image ec2 p s = (Exc (ExitJson (not_updated cur)), (w2, fetched)))
  /\ (cur <> lp ->
      has_nonempty "user_ids" lp || has_nonempty "group_names" lp = true ->
      forall r w3, Ec2.set_launch_permissions ec2 img lp w2 = (r, w3) ->
        update_image ec2 p s =
          (Exc (report r), (w3, fetched ++ [CallSetLaunchPermissions img lp])))
  /\ (cur <> lp ->
      has_nonempty "user_ids" lp || has_nonempty "group_names" lp = false ->
      has_nonempty "user_ids" cur || has_nonempty "group_names" cur = true ->
      forall r w3, Ec2.remove_launch_permissions ec2 img cur w2 = (r, w3) ->
        update_image ec2 p s =
          (Exc (report r), (w3, fetched ++ [CallRemoveLaunchPermissions img cur])))
  /\ (cur <> lp ->
      has_nonempty "user_ids" lp || has_nonempty "group_names" lp = false ->
      has_nonempty "user_ids" cur || has_nonempty "group_names" cur = false ->
      update_image ec2 p s = (Exc (ExitJson (not_updated cur)), (w2, fetched)))
  /\ not_updated cur !! "changed" = Some (JBool false)
  /\ updated lp cur !! "changed" = Some (JBool true).
Proof.
  intros Hlp Hget Hcur lp fetched report.
  assert (Hstart : forall k : perms -> M W unit,
            try_except
              (bind (remote (CallGetLaunchPermissions img)
                       (Ec2.get_launch_permissions ec2 img)) k)
              BotoServerError
              (fun e => fail_json (msg_only (boto_msg e)))
              (w1, snd s ++ [CallGetImage (image_id p)])
            = try_except (k cur) BotoServerError
                (fun e => fail_json (msg_only (boto_msg e))) (w2, fetched)).
  { intros k. unfold try_except, bind, remote. simpl. rewrite Hcur.
    unfold fetched. now rewrite <- app_assoc. }
  assert (Hrun :
            update_image ec2 p s =
            try_except
              (if negb (bool_decide (cur = lp))
               then
                 bind
                   (if has_nonempty "user_ids" lp || has_nonempty "group_names" lp
                    then remote (CallSetLaunchPermissions img lp)
                           (Ec2.set_launch_permissions ec2 img lp)
                    else if has_nonempty "user_ids" cur
                            || has_nonempty "group_names" cur
                    then remote (CallRemoveLaunchPermissions img cur)
                           (Ec2.remove_launch_permissions ec2 img cur)
                    else exit_json (not_updated cur))
                   (fun _ => exit_json (updated lp cur))
               else exit_json (not_updated cur))
              BotoServerError
              (fun e => fail_json (msg_only (boto_msg e))) (w2, fetched)).
  { unfold update_image. rewrite Hlp. fold lp.
    erewrite bind_Val by (apply remote_Ok; exact Hget).
    apply Hstart. }
  repeat split.
  - intros Heq. rewrite Hrun. rewrite bool_decide_true by assumption. reflexivity.
  - intros Hne Hd r w3 Hset. rewrite Hrun.
    rewrite bool_decide_false by assumption. rewrite Hd. simpl negb. cbv iota.
    unfold try_except, bind, remote. simpl. rewrite Hset.
    destruct r as [[] | e]; reflexivity.
  - intros Hne Hd Hc r w3 Hrem. rewrite Hrun.
    rewrite bool_decide_false by assumption. rewrite Hd, Hc. simpl negb. cbv iota.
    unfold try_except, bind, remote. simpl. rewrite Hrem.
    destruct r as [[] | e]; reflexivity.
  - intros Hne Hd Hc. rewrite Hrun.
    rewrite bool_decide_false by assumption. rewrite Hd, Hc. reflexivity.
Qed.
End UpdateImage.

(** ** main: the checks before any call *)

Section Main.
Context {W : Type}.
Variable ec2 : Ec2.connection W.
Variable clock : time.clock W.

Lemma main_present fuel p s :
  state p = "present" ->
  truthy (image_id p) && truthy_dict (launch_permissions p) = false ->
  main ec2 clock true None fuel p s =
    bind (when (negb (bool_decide (action p ∈ ["create"; "register"])))
            (fail_msg "action must be create or register"))
      (fun _ =>
         bind (when (String.eqb (action p) "create")
                 (when (negb (truthy (instance_id p)))
                    (fail_msg "instance_id is required for new image")))
           (fun _ =>
              bind (when (String.eqb (action p) "register") (register_checks p))
                (fun _ =>
                   bind (when (negb (truthy (name p)))
                           (fail_msg "name parameter is required for new image"))
                     (fun _ => create_image ec2 clock p)))) s.
Proof.
  intros Hst Hup. unfold main. rewrite Hst, Hup. reflexivity.
Qed.

(** C7. A request with [state=present] and [action=register] that is
    not a permission update and names both a snapshot and a device
    mapping, or neither, ends in [fail_json] with a validation message;
    the world and the log are as they were: no call was issued. *)
Theorem register_needs_exactly_one_source fuel p s :
  state p = "present" ->
  action p = "register" ->
  truthy (image_id p) && truthy_dict (launch_permissions p) = false ->
  truthy (snapshot_id p) = truthy_list (device_mapping p) ->
  main ec2 clock true None fuel p s =
    (Exc (FailJson (msg_only (source_rejection p))), s).
Proof.
  intros Hst Hact Hup Hsrc.
  rewrite main_present by assumption. rewrite Hact.
  unfold source_rejection, register_checks, when, fail_msg, fail_json, raise, bind, ret.
  simpl.
  destruct (truthy (virtualization_type p)); simpl; [| reflexivity].
  destruct (bool_decide (virtualization_type p ∈ _)); simpl; [| reflexivity].
  rewrite Hsrc.
  destruct (truthy_list (device_mapping p)); reflexivity.
Qed.
End Main.

(** ** create_image: how its steps move the state *)

Section CreateImage.
Context {W : Type}.
Variable ec2 : Ec2.connection W.
Variable clock : time.clock W.

Section Moves.
Variable R : relation (st W).
Context `{!PreOrder R}.

Lemma steps_get_ami_info img : steps R (get_ami_info img).
Proof. unfold get_ami_info, get_id. repeat steps_step. Qed.

(** The steps that follow the creating calls, for a relation that
    admits a sleep of one second, a fetch and a tagging of the bound
    identifier, and a permission call. *)
Section FollowUp.
Variable p : params.
Variable image_id : local string.
Hypothesis R_sleep :
  forall s, R s (time.sleep clock 1 (fst s), snd s ++ [CallSleep 1]).
Hypothesis R_fetch :
  forall iid s r w,
    image_id = Bound iid ->
    Ec2.get_image ec2 (Some iid) (fst s) = (r, w) ->
    R s (w, snd s ++ [CallGetImage (Some iid)]).
Hypothesis R_tags :
  forall iid t s r w,
    image_id = Bound iid ->
    Ec2.create_tags ec2 (Some iid) t (fst s) = (r, w) ->
    R s (w, snd s ++ [CallCreateTags (Some iid) t]).
Hypothesis R_permissions :
  forall i lp s r w,
    Ec2.set_launch_permissions ec2 i lp (fst s) = (r, w) ->
    R s (w, snd s ++ [CallSetLaunchPermissions i lp]).

Lemma steps_time_sleep : steps R (time_sleep clock 1).
Proof. intros s r s' [= <- <-]. apply R_sleep. Qed.

Lemma steps_poll_once i img : steps R (poll_once ec2 clock p image_id i img).
Proof.
  clear R_tags R_permissions.
  unfold poll_once, get_state.
  steps_step; [| apply steps_time_sleep].
  steps_step; [| repeat steps_step].
  destruct image_id as [| iid] eqn:E; simpl.
  - steps_step.
  - repeat steps_step. intros s r w. now apply R_fetch.
Qed.

Lemma steps_poll indices img : steps R (poll ec2 clock p image_id indices img).
Proof.
  revert img. induction indices as [| i rest IH]; intros img; simpl.
  - steps_step.
  - steps_step; [apply steps_poll_once |].
    destruct a as [[] img']; simpl; [apply IH | steps_step].
Qed.

Lemma steps_create_image_wait :
  steps R (create_image_wait ec2 clock p image_id).
Proof.
  unfold create_image_wait.
  steps_step; [apply steps_poll |].
  repeat steps_step.
Qed.

Lemma steps_create_image_finish img :
  steps R (create_image_finish ec2 p image_id img).
Proof.
  clear R_sleep.
  unfold create_image_finish, apply_tags, apply_launch_permissions.
  destruct image_id as [| iid] eqn:E; simpl.
  - repeat steps_step; apply steps_get_ami_info.
  - repeat steps_step; try apply steps_get_ami_info.
    + intros s r w. now apply R_tags.
    + intros s r w. now apply R_fetch.
    + intros s r w. now apply R_permissions.
Qed.
End FollowUp.

Lemma steps_create_image_calls p :
  (forall s r w,
     Ec2.get_all_images ec2 (name p) (fst s) = (r, w) ->
     R s (w, snd s ++ [CallGetAllImages (name p)])) ->
  (forall kw s r w,
     Ec2.create_image ec2 kw (fst s) = (r, w) ->
     R s (w, snd s ++ [CallCreateImage kw])) ->
  (forall kw s r w,
     Ec2.register_image ec2 kw (fst s) = (r, w) ->
     R s (w, snd s ++ [CallRegisterImage kw])) ->
  steps R (create_image_calls ec2 p).
Proof.
  intros H1 H2 H3. unfold create_image_calls, get_id.
  repeat steps_step; eauto.
Qed.
End Moves.

(** The calls of the follow-up steps are those of [follows_up]. *)
Lemma emits_follow_up p iid :
  emits (follows_up iid)
    (bind (create_image_wait ec2 clock p (Bound iid))
          (create_image_finish ec2 p (Bound iid))).
Proof.
  assert (Hf : forall i s r w,
            Bound iid = Bound i ->
            Ec2.get_image ec2 (Some i) (fst s) = (r, w) ->
            appends (follows_up iid) s (w, snd s ++ [CallGetImage (Some i)])).
  { intros i s r w [= <-] _. now apply appends_call. }
  do 2 steps_step.
  - apply steps_create_image_wait; [exact _ | | exact Hf].
    intros s. now apply appends_call.
  - apply steps_create_image_finish; [exact _ | exact Hf | |].
    + intros i t s r w [= <-] _. now apply appends_call.
    + intros i lp s r w _. now apply appends_call.
Qed.

(** [create_image] never deregisters an image nor deletes a snapshot. *)
Lemma create_image_keeps p :
  emits (fun c => is_destructive c = false) (create_image ec2 clock p).
Proof.
  unfold create_image.
  do 2 steps_step.
  - apply steps_create_image_calls; try exact _; intros; now apply appends_call.
  - steps_step.
    + apply steps_create_image_wait; try exact _; intros; now apply appends_call.
    + apply steps_create_image_finish; try exact _; intros;
        now apply appends_call.
Qed.
End CreateImage.

(** ** create_image: which creating call is made *)

Section Sources.
Context {W : Type}.
Variable ec2 : Ec2.connection W.
Variable clock : time.clock W.

Lemma range_pos n : 0 < n -> exists rest, range n = 0 :: rest.
Proof.
  intros Hn. unfold range.
  destruct (Z.to_nat n) as [| k] eqn:E; [lia |].
  simpl. eauto.
Qed.

Lemma range_nonpos n : n <= 0 -> range n = [].
Proof.
  intros Hn. unfold range.
  replace (Z.to_nat n) with O by lia. reflexivity.
Qed.

Lemma create_image_calls_no_source p s w mapping :
  truthy (instance_id p) = false ->
  truthy (snapshot_id p) = false ->
  Ec2.get_all_images ec2 (name p) (fst s) = (Ok [], w) ->
  request_mapping p = Some mapping ->
  create_image_calls ec2 p s =
    (Val Unbound, (w, snd s ++ [CallGetAllImages (name p)])).
Proof.
  intros Hi Hs Hlook Hmap. unfold create_image_calls.
  unfold try_except, bind, remote. rewrite Hlook, Hmap, Hi, Hs. reflexivity.
Qed.

Lemma create_image_calls_both p s w1 mapping id1 w2 id2 w3 :
  truthy (instance_id p) = true ->
  truthy (snapshot_id p) = true ->
  Ec2.get_all_images ec2 (name p) (fst s) = (Ok [], w1) ->
  request_mapping p = Some mapping ->
  Ec2.create_image ec2 (create_params p mapping) w1 = (Ok id1, w2) ->
  Ec2.register_image ec2 (register_params p mapping) w2 = (Ok id2, w3) ->
  create_image_calls ec2 p s =
    (Val (Bound id2),
     (w3, snd s ++ [CallGetAllImages (name p);
                    CallCreateImage (create_params p mapping);
                    CallRegisterImage (register_params p mapping)])).
Proof.
  intros Hi Hs Hlook Hmap Hc Hr. unfold create_image_calls.
  unfold try_except, bind, remote. rewrite Hlook, Hmap, Hi, Hs. simpl.
  rewrite Hc. simpl. rewrite Hr. simpl.
  now rewrite <- !app_assoc.
Qed.

(** With [image_id] unbound the polling phase ends in an unbound-name
    error: on [image_id] in the first iteration (after the [finally]
    clause has slept) if there is one, on [img] after the loop if not. *)
Lemma create_image_wait_unbound p s :
  create_image_wait ec2 clock p Unbound s =
    if 0 <? wait_timeout p
    then (Exc (UnboundLocalError "image_id"),
          (time.sleep clock 1 (fst s), snd s ++ [CallSleep 1]))
    else (Exc (UnboundLocalError "img"), s).
Proof.
  unfold create_image_wait.
  destruct (0 <? wait_timeout p) eqn:E.
  - apply Z.ltb_lt in E. destruct (range_pos _ E) as [rest ->].
    reflexivity.
  - apply Z.ltb_ge in E. rewrite (range_nonpos _ E). reflexivity.
Qed.

Lemma poll_with_action a p image_id indices img s :
  poll ec2 clock (with_action a p) image_id indices img s =
  poll ec2 clock p image_id indices img s.
Proof.
  revert img s. induction indices as [| i rest IH]; intros img s; [reflexivity |].
  simpl. unfold bind.
  change (poll_once ec2 clock (with_action a p) image_id i img s)
    with (poll_once ec2 clock p image_id i img s).
  destruct (poll_once ec2 clock p image_id i img s) as [[[[] img'] | e |] s'];
    simpl; auto.
Qed.

(** [create_image] does not read the [action] parameter. *)
Lemma create_image_with_action a p s :
  create_image ec2 clock (with_action a p) s = create_image ec2 clock p s.
Proof.
  unfold create_image, bind.
  change (create_image_calls ec2 (with_action a p) s)
    with (create_image_calls ec2 p s).
  destruct (create_image_calls ec2 p s) as [[image_id | e |] s1]; try reflexivity.
  unfold create_image_wait, bind.
  change (range (wait_timeout (with_action a p))) with (range (wait_timeout p)).
  rewrite poll_with_action. reflexivity.
Qed.

Lemma main_to_create_image fuel p s :
  state p = "present" ->
  truthy (image_id p) && truthy_dict (launch_permissions p) = false ->
  (action p = "create" /\ truthy (instance_id p) = true
   \/ action p = "register" /\ register_checks (W := W) p s = (Val tt, s)) ->
  truthy (name p) = true ->
  main ec2 clock true None fuel p s = create_image ec2 clock p s.
Proof.
  intros Hst Hup Hact Hname. rewrite main_present by assumption.
  destruct Hact as [[-> Hi] | [-> Hchecks]].
  - unfold when, bind. simpl. rewrite Hi, Hname. reflexivity.
  - unfold when, bind. simpl. rewrite Hchecks, Hname. reflexivity.
Qed.


(** C10.  [create_image] chooses its creating calls by [instance_id] and
    [snapshot_id] and never reads [action].  A request that passes the
    checks of [main] with [action=create] and both identifiers set, its
    name not being taken: the create call and then the register call are
    issued, and what follows runs on the identifier the register call
    returned, so that every later fetch and the tagging name it. *)
Theorem create_with_both_sources fuel p s w1 mapping id1 w2 id2 w3 :
  state p = "present" ->
  action p = "create" ->
  truthy (image_id p) && truthy_dict (launch_permissions p) = false ->
  truthy (name p) = true ->
  truthy (instance_id p) = true ->
  truthy (snapshot_id p) = true ->
  Ec2.get_all_images ec2 (name p) (fst s) = (Ok [], w1) ->
  request_mapping p = Some mapping ->
  Ec2.create_image ec2 (create_params p mapping) w1 = (Ok id1, w2) ->
  Ec2.register_image ec2 (register_params p mapping) w2 = (Ok id2, w3) ->
  let follow_up :=
    bind (create_image_wait ec2 clock p (Bound id2))
         (create_image_finish ec2 p (Bound id2)) in
  main ec2 clock true None fuel p s =
    follow_up (w3, snd s ++ [CallGetAllImages (name p);
                             CallCreateImage (create_params p mapping);
                             CallRegisterImage (register_params p mapping)])
  /\ emits (follows_up id2) follow_up
  /\ (forall a s', create_image ec2 clock (with_action a p) s' =
                   create_image ec2 clock p s').
Proof.
  intros Hst Hact Hup Hname Hi Hs Hlook Hmap Hc Hr follow_up.
  split; [| split].
  - rewrite main_to_create_image; auto.
    unfold create_image.
    erewrite bind_Val by (eapply create_image_calls_both; eauto).
    reflexivity.
  - apply emits_follow_up.
  - intros a s'. apply create_image_with_action.
Qed.
End Sources.

(** ** create_image: polling, tags and launch permissions *)

Section Finish.
Context {W : Type}.
Variable ec2 : Ec2.connection W.
Variable clock : time.clock W.

(** Every iteration of the polling loop is one fetch by identifier
    followed by a sleep of one second, and there are at most as many as
    indices. *)
Lemma poll_once_round p iid i img s r s' :
  poll_once ec2 clock p (Bound iid) i img s = (r, s') ->
  snd s' = snd s ++ fetch_rounds iid 1.
Proof.
  unfold poll_once, try_finally, try_except, bind, remote, time_sleep. simpl.
  destruct (Ec2.get_image ec2 (Some iid) (fst s)) as [[[im |] | e] w]; simpl.
  - destruct (String.eqb _ _); intros [= <- <-]; simpl; now rewrite <- app_assoc.
  - intros [= <- <-]; simpl; now rewrite <- app_assoc.
  - destruct (is_EC2ResponseError e); simpl.
    + destruct (_ && _); intros [= <- <-]; simpl; now rewrite <- app_assoc.
    + intros [= <- <-]; simpl; now rewrite <- app_assoc.
Qed.

Lemma fetch_rounds_app iid j k :
  fetch_rounds iid j ++ fetch_rounds iid k = fetch_rounds iid (j + k).
Proof. induction j as [| j IH]; simpl; [reflexivity | now rewrite IH]. Qed.

Lemma poll_rounds p iid indices img s r s' :
  poll ec2 clock p (Bound iid) indices img s = (r, s') ->
  exists k, (k <= length indices)%nat /\ snd s' = snd s ++ fetch_rounds iid k.
Proof.
  revert img s. induction indices as [| i rest IH]; intros img s; simpl.
  - intros [= <- <-]. exists O. split; [lia | now rewrite app_nil_r].
  - unfold bind.
    destruct (poll_once ec2 clock p (Bound iid) i img s) as [x s1] eqn:E.
    pose proof (poll_once_round _ _ _ _ _ _ _ E) as H1.
    destruct x as [[[] img'] | e |]; simpl.
    + intros H. destruct (IH _ _ H) as (k & Hk & Hlog).
      exists (S k). split; [lia |].
      rewrite Hlog, H1, <- app_assoc, fetch_rounds_app. reflexivity.
    + intros [= <- <-]. exists 1%nat. split; [lia | exact H1].
    + intros [= <- <-]. exists 1%nat. split; [lia | exact H1].
    + intros [= <- <-]. exists 1%nat. split; [lia | exact H1].
Qed.

Lemma length_range n : length (range n) = Z.to_nat n.
Proof. unfold range. now rewrite length_map, length_seq. Qed.

(** Whatever its outcome, the polling phase has issued at most
    [wait_timeout] rounds of one fetch and one sleep of a second. *)
Lemma create_image_wait_rounds p iid s r s' :
  create_image_wait ec2 clock p (Bound iid) s = (r, s') ->
  exists k, (k <= Z.to_nat (wait_timeout p))%nat
            /\ snd s' = snd s ++ fetch_rounds iid k.
Proof.
  unfold create_image_wait, bind.
  destruct (poll ec2 clock p (Bound iid) (range (wait_timeout p)) Unbound s)
    as [x s1] eqn:E.
  destruct (poll_rounds _ _ _ _ _ _ _ E) as (k & Hk & Hlog).
  rewrite length_range in Hk.
  destruct x as [[| [i |]] | e |]; simpl;
    try destruct (negb _); intros [= <- <-]; eauto.
Qed.

(** The loop stops at the first iteration that fetches an image whose
    state is "available". *)
Lemma poll_stops_when_available p iid i rest img s im w :
  Ec2.get_image ec2 (Some iid) (fst s) = (Ok (Some im), w) ->
  Image.state im = "available" ->
  poll ec2 clock p (Bound iid) (i :: rest) img s =
    (Val (Bound (Some im)),
     (time.sleep clock 1 w, snd s ++ fetch_rounds iid 1)).
Proof.
  intros Hget Hst. simpl.
  unfold bind, poll_once, try_finally, try_except, bind, remote, time_sleep.
  simpl. rewrite Hget. simpl. rewrite Hst. simpl.
  now rewrite <- app_assoc.
Qed.

(** An iteration that fetches an image in another state goes on. *)
Lemma poll_goes_on p iid i rest img s im w :
  Ec2.get_image ec2 (Some iid) (fst s) = (Ok (Some im), w) ->
  String.eqb (Image.state im) "available" = false ->
  poll ec2 clock p (Bound iid) (i :: rest) img s =
    poll ec2 clock p (Bound iid) rest (Bound (Some im))
      (time.sleep clock 1 w, snd s ++ fetch_rounds iid 1).
Proof.
  intros Hget Hst. simpl.
  unfold bind at 1. unfold poll_once, try_finally, try_except, bind, remote, time_sleep.
  simpl. rewrite Hget. simpl. rewrite Hst. simpl.
  now rewrite <- app_assoc.
Qed.

(** After the loop, an image that was fetched but is not "available"
    ends the run with the message of line 496. *)
Lemma create_image_wait_not_available p image_id s im s' :
  poll ec2 clock p image_id (range (wait_timeout p)) Unbound s =
    (Val (Bound (Some im)), s') ->
  String.eqb (Image.state im) "available" = false ->
  create_image_wait ec2 clock p image_id s =
    (Exc (FailJson (msg_only find_msg)), s').
Proof.
  intros Hpoll Hst. unfold create_image_wait.
  erewrite bind_Val by exact Hpoll. simpl. unfold bind. simpl.
  rewrite Hst. reflexivity.
Qed.

(** When every fetch is answered by an [EC2ResponseError] whose code
    says the image is not found, no iteration binds [img]: the loop runs
    to its end and line 495 reads an unbound name. *)
Lemma poll_never_found p iid e :
  is_EC2ResponseError e = true ->
  contains "InvalidAMIID.NotFound" (error_code e) = true ->
  (forall w, exists w', Ec2.get_image ec2 (Some iid) w = (Err e, w')) ->
  forall indices s,
    exists s', poll ec2 clock p (Bound iid) indices Unbound s = (Val Unbound, s').
Proof.
  intros Hcls Hcode Hget. induction indices as [| i rest IH]; intros s; simpl.
  - eexists. reflexivity.
  - destruct (Hget (fst s)) as [w' Hw].
    unfold bind at 1.
    unfold poll_once, try_finally, try_except, bind, remote, time_sleep.
    simpl. rewrite Hw. simpl. rewrite Hcls, Hcode. simpl.
    apply IH.
Qed.

Lemma create_image_wait_never_found p iid e s :
  is_EC2ResponseError e = true ->
  contains "InvalidAMIID.NotFound" (error_code e) = true ->
  (forall w, exists w', Ec2.get_image ec2 (Some iid) w = (Err e, w')) ->
  exists s',
    create_image_wait ec2 clock p (Bound iid) s =
      (Exc (UnboundLocalError "img"), s').
Proof.
  intros Hcls Hcode Hget.
  destruct (poll_never_found p iid e Hcls Hcode Hget (range (wait_timeout p)) s)
    as [s' Hs'].
  exists s'. unfold create_image_wait.
  erewrite bind_Val by exact Hs'. reflexivity.
Qed.

(** C9.  Once the image has been created as [iid] and seen available:
    a failing [create_tags] ends the run at once, with [fail_json] and
    the message "Image tagging failed => ..." for an [EC2ResponseError]
    and with the error itself otherwise; a boto error of the fetch or of
    [set_launch_permissions] ends it with [fail_json], and the report
    carries [image_id=iid]; and no run of [create_image] ever issues a
    deregistration or a snapshot deletion. *)
Theorem tag_and_permission_failures p s0 iid s1 img s2 :
  create_image_calls ec2 p s0 = (Val (Bound iid), s1) ->
  create_image_wait ec2 clock p (Bound iid) s1 = (Val img, s2) ->
  (forall t e w,
     tags p = Some t -> t <> ∅ ->
     Ec2.create_tags ec2 (Some iid) t (fst s2) = (Err e, w) ->
     create_image ec2 clock p s0 =
       (Exc (if is_EC2ResponseError e
             then FailJson (msg_only ("Image tagging failed => " +:+ boto_msg e))
             else Boto e),
        (w, snd s2 ++ [CallCreateTags (Some iid) t])))
  /\ (forall lp s3 e w,
        apply_tags ec2 p (Bound iid) s2 = (Val tt, s3) ->
        launch_permissions p = Some lp -> lp <> ∅ ->
        Ec2.get_image ec2 (Some iid) (fst s3) = (Err e, w) ->
        create_image ec2 clock p s0 =
          (Exc (FailJson (permissions_failed e iid)),
           (w, snd s3 ++ [CallGetImage (Some iid)])))
  /\ (forall lp s3 i w' e w,
        apply_tags ec2 p (Bound iid) s2 = (Val tt, s3) ->
        launch_permissions p = Some lp -> lp <> ∅ ->
        Ec2.get_image ec2 (Some iid) (fst s3) = (Ok (Some i), w') ->
        Ec2.set_launch_permissions ec2 i lp w' = (Err e, w) ->
        create_image ec2 clock p s0 =
          (Exc (FailJson (permissions_failed e iid)),
           (w, snd s3 ++ [CallGetImage (Some iid);
                          CallSetLaunchPermissions i lp])))
  /\ (forall e, permissions_failed e iid !! "image_id" = Some (JStr iid))
  /\ emits (fun c => is_destructive c = false) (create_image ec2 clock p).
Proof.
  intros Hcalls Hwait.
  assert (Hrun : create_image ec2 clock p s0 =
                 create_image_finish ec2 p (Bound iid) img s2).
  { unfold create_image.
    erewrite bind_Val by exact Hcalls.
    erewrite bind_Val by exact Hwait. reflexivity. }
  repeat split.
  - intros t e w Ht Hne Htag. rewrite Hrun.
    unfold create_image_finish, apply_tags. rewrite Ht.
    rewrite bool_decide_false by assumption. simpl negb. cbv iota.
    unfold bind at 1. unfold try_except, bind, remote. simpl. rewrite Htag.
    unfold isinstance. destruct (is_EC2ResponseError e); reflexivity.
  - intros lp s3 e w Htags Hlp Hne Hget. rewrite Hrun.
    unfold create_image_finish.
    erewrite bind_Val by exact Htags.
    unfold apply_launch_permissions. rewrite Hlp.
    rewrite bool_decide_false by assumption. simpl negb. cbv iota.
    unfold bind at 1. unfold try_except, bind, remote. simpl. rewrite Hget.
    reflexivity.
  - intros lp s3 i w' e w Htags Hlp Hne Hget Hset. rewrite Hrun.
    unfold create_image_finish.
    erewrite bind_Val by exact Htags.
    unfold apply_launch_permissions. rewrite Hlp.
    rewrite bool_decide_false by assumption. simpl negb. cbv iota.
    unfold bind at 1. unfold try_except, bind, remote. simpl. rewrite Hget.
    simpl. rewrite Hset. simpl. now rewrite <- app_assoc.
  - apply create_image_keeps.
Qed.
End Finish.

(** ** create_image: twice under one name *)

Section Twice.
Context {W : Type}.
Variable ec2 : Ec2.connection W.
Variable clock : time.clock W.
Variable held : option string -> W -> Prop.
Hypothesis registry : keeping ec2 clock held.

(** When the creating calls leave an identifier, or end in the report
    of an existing name, the name is held. *)
Lemma create_image_calls_held p s r s' :
  create_image_calls ec2 p s = (r, s') ->
  match r with
  | Val (Bound _) | Exc (ExitJson _) => held (name p) (fst s')
  | _ => True
  end.
Proof.
  unfold create_image_calls, try_except, bind, remote, get_id.
  destruct (Ec2.get_all_images ec2 (name p) (fst s)) as [[[| i rest] | e] w] eqn:El;
    simpl.
  - destruct (request_mapping p) as [mapping |]; simpl;
      [| intros [= <- <-]; exact I].
    destruct (truthy (instance_id p)); simpl.
    + destruct (Ec2.create_image ec2 (create_params p mapping) w)
        as [[iid | e] w1] eqn:Ec; simpl; [| intros [= <- <-]; exact I].
      pose proof (created_held _ _ _ registry _ _ _ _ Ec) as Hc. simpl in Hc.
      destruct (truthy (snapshot_id p)); simpl; [| intros [= <- <-]; exact Hc].
      destruct (Ec2.register_image ec2 (register_params p mapping) w1)
        as [[iid' | e] w2] eqn:Er; simpl; intros [= <- <-]; [| exact I].
      exact (register_keeps _ _ _ registry _ _ _ _ _ Er Hc).
    + destruct (truthy (snapshot_id p)); simpl; [| intros [= <- <-]; exact I].
      destruct (Ec2.register_image ec2 (register_params p mapping) w)
        as [[iid' | e] w2] eqn:Er; simpl; intros [= <- <-]; [| exact I].
      exact (registered_held _ _ _ registry _ _ _ _ Er).
  - destruct (Image.id i); simpl; intros [= <- <-]; [| exact I].
    exact (listed_held _ _ _ registry _ _ _ _ _ El).
  - intros [= <- <-]. exact I.
Qed.

Lemma follow_up_preserves_held p image_id n :
  preserves (held n) (create_image_wait ec2 clock p image_id)
  /\ forall img, preserves (held n) (create_image_finish ec2 p image_id img).
Proof.
  split; [| intros img].
  - apply steps_create_image_wait; try exact _.
    + intros s H. now apply (sleep_keeps _ _ _ registry).
    + intros iid s r w _ E H. exact (fetch_keeps _ _ _ registry _ _ _ _ _ E H).
  - apply steps_create_image_finish; try exact _.
    + intros iid s r w _ E H. exact (fetch_keeps _ _ _ registry _ _ _ _ _ E H).
    + intros iid t s r w _ E H. exact (tags_keep _ _ _ registry _ _ _ _ _ _ E H).
    + intros i lp s r w E H.
      exact (permissions_keep _ _ _ registry _ _ _ _ _ _ E H).
Qed.

(** A run of [create_image] that ends in [exit_json] leaves the name
    held. *)
Lemma create_image_leaves_held p s kw s' :
  create_image ec2 clock p s = (Exc (ExitJson kw), s') ->
  held (name p) (fst s').
Proof.
  unfold create_image, bind.
  destruct (create_image_calls ec2 p s) as [r1 s1] eqn:E1.
  pose proof (create_image_calls_held _ _ _ _ E1) as H1.
  destruct r1 as [[| iid] | e |]; try discriminate.
  - rewrite create_image_wait_unbound.
    destruct (0 <? wait_timeout p); discriminate.
  - destruct (follow_up_preserves_held p (Bound iid) (name p)) as [Hw Hf].
    destruct (create_image_wait ec2 clock p (Bound iid) s1) as [r2 s2] eqn:E2.
    pose proof (Hw _ _ _ E2 H1) as H2.
    destruct r2 as [img | e |]; try discriminate.
    + intros E3. exact (Hf img _ _ _ E3 H2).
    + intros [= -> <-]. exact H2.
  - intros [= -> <-]. exact H1.
Qed.

(** Over a registry that keeps its images, an invocation that follows
    one that ended in [exit_json] reports an image of that name with
    [changed=False], and issues the lookup only. *)
Lemma create_image_twice p s0 kw s1 :
  create_image ec2 clock p s0 = (Exc (ExitJson kw), s1) ->
  exists iid status w,
    create_image ec2 clock p s1 =
      (Exc (ExitJson (name_present iid status)),
       (w, snd s1 ++ [CallGetAllImages (name p)])).
Proof.
  intros Hfirst.
  pose proof (create_image_leaves_held _ _ _ _ Hfirst) as Hheld.
  destruct (held_listed _ _ _ registry _ _ Hheld) as (i & rest & w & Hlook).
  destruct (listed_id _ _ _ registry _ _ _ _ _ Hlook) as [iid Hid].
  exists iid, (Image.state i), w.
  now apply create_image_existing with (rest := rest).
Qed.
End Twice.

Section ExistingName.
Context {W : Type}.
Variable ec2 : Ec2.connection W.
Variable clock : time.clock W.

(** C4.  When the lookup by name finds an image, [create_image] reports
    that image's identifier and state with [changed=False], and the only
    call it has issued is the lookup: no create, register, tag or
    permission call.  Hence, over a registry that keeps its images, of
    two invocations in a row with the same request, the first ending in
    [exit_json], the second reports [changed=False] and issues the
    lookup only. *)
Theorem ensure_present_existing_name p :
  (forall s i rest w iid,
     Ec2.get_all_images ec2 (name p) (fst s) = (Ok (i :: rest), w) ->
     Image.id i = Some iid ->
     create_image ec2 clock p s =
       (Exc (ExitJson (name_present iid (Image.state i))),
        (w, snd s ++ [CallGetAllImages (name p)])))
  /\ (forall iid status,
        name_present iid status !! "image_id" = Some (JStr iid)
        /\ name_present iid status !! "state" = Some (JStr status)
        /\ name_present iid status !! "changed" = Some (JBool false))
  /\ (forall held s0 kw s1,
        keeping ec2 clock held ->
        create_image ec2 clock p s0 = (Exc (ExitJson kw), s1) ->
        exists iid status w,
          create_image ec2 clock p s1 =
            (Exc (ExitJson (name_present iid status)),
             (w, snd s1 ++ [CallGetAllImages (name p)]))).
Proof.
  split; [| split].
  - intros s i rest w iid Hlook Hid.
    now apply create_image_existing with (rest := rest).
  - intros iid status. repeat split; reflexivity.
  - intros held s0 kw s1 Hreg Hfirst.
    exact (create_image_twice ec2 clock held Hreg p s0 kw s1 Hfirst).
Qed.
End ExistingName.

(** ** deregister_image: waiting for the image to go *)

Section Waiting.
Context {W : Type}.
Variable ec2 : Ec2.connection W.
Variable clock : time.clock W.

Lemma still_waiting_reads p deadline img s t w :
  wait p = true ->
  time.time clock (fst s) = (t, w) ->
  still_waiting clock p deadline img s =
    (Val (negb (Qle_bool deadline t)
          && match img with Some _ => true | None => false end),
     (w, snd s ++ [CallTime t])).
Proof.
  intros Hwait Ht. unfold still_waiting, bind, time_time.
  rewrite Hwait, Ht. destruct (Qle_bool deadline t); reflexivity.
Qed.

(** A run of the loop that ends normally has read the clock before each
    round and once more at the end; the readings that let it go on were
    before the deadline, and the last one is at or after the deadline
    unless the image is gone. *)
Lemma wait_until_gone_rounds p deadline :
  wait p = true ->
  forall fuel img s img' s',
    wait_until_gone ec2 clock fuel p deadline img s = (Val img', s') ->
    exists readings t w,
      snd s' = snd s ++ wait_rounds (image_id p) readings ++ [CallTime t]
      /\ Forall (fun r => (r < deadline)%Q) readings
      /\ (length readings <= fuel)%nat
      /\ time.time clock w = (t, fst s')
      /\ ((deadline <= t)%Q \/ img' = None).
Proof.
  intros Hwait. induction fuel as [| fuel IH]; intros img s img' s'.
  - simpl. unfold bind.
    destruct (time.time clock (fst s)) as [t w] eqn:Ht.
    rewrite (still_waiting_reads _ _ _ _ _ _ Hwait Ht).
    destruct (Qle_bool deadline t) eqn:Hle; simpl.
    + intros [= <- <-]. exists [], t, (fst s). simpl.
      repeat split; auto. left. now apply Qle_bool_iff.
    + destruct img; [discriminate |].
      intros [= <- <-]. exists [], t, (fst s). simpl. repeat split; auto.
  - simpl. unfold bind at 1.
    destruct (time.time clock (fst s)) as [t w] eqn:Ht.
    rewrite (still_waiting_reads _ _ _ _ _ _ Hwait Ht).
    destruct (Qle_bool deadline t) eqn:Hle; simpl.
    + intros [= <- <-]. exists [], t, (fst s). simpl.
      repeat split; auto; [lia |]. left. now apply Qle_bool_iff.
    + destruct img as [i |].
      * unfold bind at 1. unfold remote. simpl.
        destruct (Ec2.get_image ec2 (image_id p) w) as [[img1 | e] w1];
          [| discriminate].
        unfold bind at 1. unfold time_sleep. simpl.
        intros H. destruct (IH _ _ _ _ H) as (rs & t' & w' & Hlog & Hrs & Hlen & Ht' & Hend).
        exists (t :: rs), t', w'. simpl in *.
        repeat split; auto.
        -- rewrite Hlog. rewrite <- !app_assoc. reflexivity.
        -- constructor; [| assumption].
           apply Qnot_le_lt. intros Hc.
           apply Qle_bool_iff in Hc. congruence.
        -- lia.
      * intros [= <- <-]. exists [], t, (fst s). simpl.
        repeat split; auto. lia.
Qed.

(** If the loop ends with the image still retrievable, the last reading
    is at or after the deadline and, the clock not going back, the run
    ends in [fail_json] with the timeout message. *)
Lemma wait_times_out fuel p s0 snapshots s img0 w1 t0 w2 img' s3 :
  wait p = true ->
  steady clock ->
  deregister_request ec2 p s0 = (Val snapshots, s) ->
  Ec2.get_image ec2 (image_id p) (fst s) = (Ok img0, w1) ->
  time.time clock w1 = (t0, w2) ->
  let deadline := (t0 + inject_Z (wait_timeout p))%Q in
  let started := snd s ++ [CallGetImage (image_id p); CallTime t0] in
  wait_until_gone ec2 clock fuel p deadline img0 (w2, started)
    = (Val (Some img'), s3) ->
  exists readings t_end t_check w4,
    snd s3 = started ++ wait_rounds (image_id p) readings ++ [CallTime t_end]
    /\ Forall (fun r => (r < deadline)%Q) readings
    /\ (length readings <= fuel)%nat
    /\ (deadline <= t_end)%Q
    /\ (deadline <= t_check)%Q
    /\ deregister_image ec2 clock fuel p s0 =
         (Exc (FailJson (msg_only timed_out_msg)),
          (w4, snd s3 ++ [CallTime t_check])).
Proof.
  intros Hwait Hsteady Hreq Hget Ht0 deadline started Hloop.
  destruct (wait_until_gone_rounds p deadline Hwait _ _ _ _ _ Hloop)
    as (rs & t & w & Hlog & Hrs & Hlen & Ht & Hend).
  destruct Hend as [Hend | ?]; [| discriminate].
  destruct (time.time clock (fst s3)) as [tc w4] eqn:Htc.
  assert (Hc : (deadline <= tc)%Q).
  { eapply Qle_trans; [exact Hend |]. eapply Hsteady; eassumption. }
  exists rs, t, tc, w4. simpl in Hlog. repeat split; auto.
  unfold deregister_image.
  erewrite bind_Val by exact Hreq.
  erewrite bind_Exc; [reflexivity |].
  unfold deregister_wait.
  erewrite bind_Val by (apply remote_Ok; exact Hget).
  unfold bind at 1. unfold time_time at 1. simpl. rewrite Ht0.
  fold deadline. rewrite <- app_assoc. simpl. fold started.
  erewrite bind_Val by exact Hloop.
  rewrite Hwait. unfold bind, time_time. rewrite Htc.
  apply Qle_bool_iff in Hc. rewrite Hc. reflexivity.
Qed.

(** *** Termination of the waiting loop *)

Section Ticking.
Variable now : W -> Q.
Hypothesis ticks : ticking ec2 clock now.

Lemma ticking_steady : steady clock.
Proof.
  intros w t w' t' w'' H1 H2.
  destruct (reading _ _ _ ticks _ _ _ H1) as [_ Ha].
  destruct (reading _ _ _ ticks _ _ _ H2) as [Hb _].
  now apply Qle_trans with (now w').
Qed.

Lemma wait_until_gone_terminates p deadline :
  forall fuel img s,
    (deadline - now (fst s) < 3 * inject_Z (Z.of_nat fuel))%Q ->
    exists r s',
      wait_until_gone ec2 clock fuel p deadline img s = (r, s')
      /\ r <> Fuel.
Proof.
  induction fuel as [| fuel IH]; intros img s Hfuel.
  - simpl. unfold bind, still_waiting.
    destruct (wait p); [| eexists _, _; split; [reflexivity | discriminate]].
    unfold bind, time_time.
    destruct (time.time clock (fst s)) as [t w] eqn:Ht.
    destruct (reading _ _ _ ticks _ _ _ Ht) as [H1 H2].
    assert (Hle : Qle_bool deadline t = true).
    { apply Qle_bool_iff.
      change (inject_Z (Z.of_nat 0)) with 0%Q in Hfuel. lra. }
    rewrite Hle. simpl.
    eexists _, _; split; [reflexivity | discriminate].
  - simpl. unfold bind at 1. unfold still_waiting.
    destruct (wait p); [| eexists _, _; split; [reflexivity | discriminate]].
    unfold bind at 1. unfold time_time.
    destruct (time.time clock (fst s)) as [t w] eqn:Ht.
    destruct (reading _ _ _ ticks _ _ _ Ht) as [H1 H2].
    destruct (Qle_bool deadline t); simpl;
      [eexists _, _; split; [reflexivity | discriminate] |].
    destruct img as [i |]; simpl;
      [| eexists _, _; split; [reflexivity | discriminate]].
    unfold bind at 1. unfold remote. simpl.
    destruct (Ec2.get_image ec2 (image_id p) w) as [r w1] eqn:Hget.
    pose proof (fetching _ _ _ ticks _ _ _ _ Hget) as H3.
    destruct r as [img1 | e];
      [| eexists _, _; split; [reflexivity | discriminate]].
    unfold bind at 1. unfold time_sleep. simpl.
    apply IH. simpl.
    pose proof (sleeping _ _ _ ticks 3 w1) as H4.
    rewrite Nat2Z.inj_succ in Hfuel. unfold Z.succ in Hfuel.
    rewrite inject_Z_plus in Hfuel.
    change (inject_Z 3) with 3%Q in H4. change (inject_Z 1) with 1%Q in Hfuel.
    lra.
Qed.

(** With more than a third of [wait_timeout] as fuel, the waiting
    phase of [deregister_image] never runs out of it. *)
Lemma deregister_wait_terminates fuel p s :
  wait_timeout p < 3 * Z.of_nat fuel ->
  exists r s', deregister_wait ec2 clock fuel p s = (r, s') /\ r <> Fuel.
Proof.
  intros Hfuel. unfold deregister_wait.
  unfold bind at 1. unfold remote.
  destruct (Ec2.get_image ec2 (image_id p) (fst s)) as [r w1] eqn:Hget.
  pose proof (fetching _ _ _ ticks _ _ _ _ Hget) as H0.
  destruct r as [img | e];
    [| eexists _, _; split; [reflexivity | discriminate]].
  unfold bind at 1. unfold time_time at 1. simpl.
  destruct (time.time clock w1) as [t0 w2] eqn:Ht0.
  destruct (reading _ _ _ ticks _ _ _ Ht0) as [H1 H2].
  unfold bind at 1.
  destruct (wait_until_gone_terminates p (t0 + inject_Z (wait_timeout p))%Q
              fuel img (w2, snd s ++ [CallGetImage (image_id p)] ++ [CallTime t0]))
    as (r & s' & Hr & Hne).
  { simpl.
    assert (Hq : (inject_Z (wait_timeout p) < 3 * inject_Z (Z.of_nat fuel))%Q).
    { change 3%Q with (inject_Z 3). rewrite <- inject_Z_mult.
      rewrite <- Zlt_Qlt. exact Hfuel. }
    lra. }
  rewrite <- app_assoc. rewrite Hr.
  destruct r as [img1 | e |]; [| eexists _, _; split; [reflexivity | discriminate] | congruence].
  destruct (wait p); [| eexists _, _; split; [reflexivity | discriminate]].
  unfold bind, time_time.
  destruct (time.time clock (fst s')) as [t w].
  destruct (Qle_bool _ t); eexists _, _; (split; [reflexivity | discriminate]).
Qed.

Lemma deregister_request_ends p s :
  exists r s', deregister_request ec2 p s = (r, s') /\ r <> Fuel.
Proof.
  unfold deregister_request, bind, remote, try_except.
  destruct (Ec2.get_image ec2 (image_id p) (fst s)) as [[[i |] | e] w]; simpl;
    try (eexists _, _; split; [reflexivity | discriminate]).
  destruct (Image.id i); simpl;
    try (eexists _, _; split; [reflexivity | discriminate]).
  destruct (Ec2.deregister_image ec2 (image_id p) (delete_snapshot p) w)
    as [[[] | e] w']; simpl;
    eexists _, _; (split; [reflexivity | discriminate]).
Qed.

Lemma delete_phase_ends p snapshots s :
  exists r s', delete_phase ec2 p snapshots s = (r, s') /\ r <> Fuel.
Proof.
  destruct (delete_snapshot p) eqn:E.
  - destruct (delete_phase_reports_all ec2 p snapshots s E) as [s' H].
    eexists _, _. split; [exact H | discriminate].
  - unfold delete_phase. rewrite E.
    eexists _, _. split; [reflexivity | discriminate].
Qed.

(** With more than a third of [wait_timeout] as fuel, a run of
    [deregister_image] ends: the fuel is not exhausted. *)
Lemma deregister_image_ends fuel p s :
  wait_timeout p < 3 * Z.of_nat fuel ->
  exists r s', deregister_image ec2 clock fuel p s = (r, s') /\ r <> Fuel.
Proof.
  intros Hfuel. unfold deregister_image, bind.
  destruct (deregister_request_ends p s) as (r1 & s1 & -> & H1).
  destruct r1 as [snapshots | e |]; [| | congruence];
    [| eexists _, _; split; [reflexivity | discriminate]].
  destruct (deregister_wait_terminates fuel p s1 Hfuel) as (r2 & s2 & -> & H2).
  destruct r2 as [[] | e |]; [| | congruence];
    [| eexists _, _; split; [reflexivity | discriminate]].
  apply delete_phase_ends.
Qed.

End Ticking.
End Waiting.

(** ** The controller on concrete requests *)

(** *** The test clock ticks *)

Lemma Toy_ticking : ticking Toy.ec2 Toy.clock Toy.now.
Proof.
  split.
  - intros w t w' [= <- <-]. split; apply Qle_refl.
  - intros n w. apply Qle_refl.
  - intros i w r w'. simpl.
    destruct (Toy.polls w); intros [= _ <-]; apply Qle_refl.
Qed.

(** *** The test registry keeps its images *)

Lemma Toy_named_new n i w :
  Toy.named n (n, Toy.image i "available" None) = true
  /\ (Toy.held n w ->
      List.filter (Toy.named n) (Toy.images w ++ [(n, Toy.image i "available" None)])
        <> []).
Proof.
  split.
  - unfold Toy.named. simpl. now rewrite bool_decide_true.
  - unfold Toy.held. rewrite List.filter_app.
    destruct (List.filter (Toy.named n) (Toy.images w)); [congruence | discriminate].
Qed.

Lemma Toy_keeping : keeping Toy.ec2 Toy.clock Toy.held.
Proof.
  split.
  - intros n w H. unfold Toy.held in H. simpl.
    destruct (List.filter (Toy.named n) (Toy.images w)) as [| e l] eqn:E;
      [congruence |].
    exists (snd e), (map snd l), w. reflexivity.
  - intros n w i rest w' [= H <-]. unfold Toy.held.
    destruct (List.filter (Toy.named n) (Toy.images w)); [discriminate | discriminate].
  - intros n w i rest w' [= H _].
    destruct (List.filter (Toy.named n) (Toy.images w)) as [| e l] eqn:E;
      [discriminate |].
    injection H as <- _.
    assert (Hin : List.In e (List.filter (Toy.named n) (Toy.images w)))
      by (rewrite E; now left).
    apply List.filter_In in Hin. destruct Hin as [_ Hn].
    unfold Toy.named in Hn. apply andb_true_iff in Hn. destruct Hn as [_ Hn].
    destruct (Image.id (snd e)) as [iid |]; [eauto | discriminate].
  - intros kw w iid w'. simpl.
    destruct (Toy.create_error w); [discriminate |]. intros [= _ <-].
    unfold Toy.held. simpl. rewrite List.filter_app. simpl.
    rewrite (proj1 (Toy_named_new (c_name kw) _ w)).
    now destruct (List.filter _ (Toy.images w)).
  - intros kw w iid w'. simpl. intros [= _ <-].
    unfold Toy.held. simpl. rewrite List.filter_app. simpl.
    rewrite (proj1 (Toy_named_new (r_name kw) _ w)).
    now destruct (List.filter _ (Toy.images w)).
  - intros n kw w r w'. simpl. intros [= _ <-] H.
    unfold Toy.held in *. simpl. rewrite List.filter_app.
    destruct (List.filter (Toy.named n) (Toy.images w)); [congruence | discriminate].
  - intros n i w r w'. simpl.
    destruct (Toy.polls w); intros [= _ <-] H; exact H.
  - intros n i t w r w'. simpl. intros [= _ <-] H. exact H.
  - intros n i lp w r w'. simpl.
    destruct (Toy.permissions_error w); intros [= _ <-] H; exact H.
  - intros n k w H. exact H.
Qed.

(** *** Deregistering an image that does not exist *)

(** C1, as stated, fails: image ami-1 is not in the empty registry, and
    the run ends in [fail_json], a failure report, not in [exit_json]. *)
Lemma deregister_absent_is_a_failure :
  Ec2.get_image Toy.ec2 (image_id Toy.deregister) Toy.empty = (Ok None, Toy.empty)
  /\ Toy.run 0 Toy.deregister Toy.empty =
       (Exc (FailJson (does_not_exist (Some "ami-1"))),
        (Toy.empty, [CallGetImage (Some "ami-1")]))
  /\ forall kw, fst (Toy.run 0 Toy.deregister Toy.empty) <> Exc (ExitJson kw).
Proof.
  split; [reflexivity |]. split; [vm_compute; reflexivity |].
  intros kw. vm_compute. discriminate.
Qed.

Lemma deregister_absent_image_witness :
  Ec2.get_image Toy.ec2 (image_id Toy.deregister) Toy.empty = (Ok None, Toy.empty)
  /\ deregister_image Toy.ec2 Toy.clock 0 Toy.deregister (Toy.empty, []) =
       (Exc (FailJson (does_not_exist (image_id Toy.deregister))),
        (Toy.empty, [] ++ [CallGetImage (image_id Toy.deregister)])).
Proof.
  split; [reflexivity |].
  exact (proj1 (deregister_absent_image Toy.ec2 Toy.clock 0 Toy.deregister
                  (Toy.empty, []) Toy.empty eq_refl)).
Defined.

(** *** Deleting snapshots that cannot be deleted *)

(** C2: the code against the claim.  The registry answers the deletion
    of snap-1 with "UnauthorizedOperation".  The run still ends in
    [exit_json] with [changed=True] and both snapshot ids listed as
    deleted; the error is dropped and snap-2 is never tried. *)
Theorem other_snapshot_errors_are_swallowed :
  Ec2.delete_snapshot Toy.ec2 (Some "snap-1") Toy.protected_snapshots
    = (Err Toy.unauthorized, Toy.protected_snapshots)
  /\ error_code Toy.unauthorized <> "InvalidSnapshot.NotFound"
  /\ fst (Toy.run 0 Toy.deregister_snapshots Toy.protected_snapshots)
     = Exc (ExitJson (deregistered_with [Some "snap-1"; Some "snap-2"]))
  /\ snd (snd (Toy.run 0 Toy.deregister_snapshots Toy.protected_snapshots))
     = [CallGetImage (Some "ami-1");
        CallDeregisterImage (Some "ami-1") true;
        CallGetImage (Some "ami-1");
        CallTime 0;
        CallDeleteSnapshot (Some "snap-1")].
Proof.
  split; [reflexivity |]. split; [discriminate |].
  split; vm_compute; reflexivity.
Qed.

(** *** Registering from a device mapping *)



(** *** Creating twice under one name *)

(** The first run creates ami-c0; the second finds it by its name. *)
Lemma ensure_present_existing_name_witness :
  (exists kw,
     create_image Toy.ec2 Toy.clock Toy.create_web (Toy.empty, [])
       = (Exc (ExitJson kw), snd Toy.first)
     /\ kw !! "changed" = Some (JBool true))
  /\ Ec2.get_all_images Toy.ec2 (name Toy.create_web) (fst (snd Toy.first))
     = (Ok [Toy.image "ami-c0" "available" None], fst (snd Toy.first))
  /\ create_image Toy.ec2 Toy.clock Toy.create_web (snd Toy.first) =
       (Exc (ExitJson (name_present "ami-c0" "available")),
        (fst (snd Toy.first),
         snd (snd Toy.first) ++ [CallGetAllImages (name Toy.create_web)]))
  /\ exists iid status w,
       create_image Toy.ec2 Toy.clock Toy.create_web (snd Toy.first) =
         (Exc (ExitJson (name_present iid status)),
          (w, snd (snd Toy.first) ++ [CallGetAllImages (name Toy.create_web)])).
Proof.
  assert (Hfirst : exists kw,
            create_image Toy.ec2 Toy.clock Toy.create_web (Toy.empty, [])
              = (Exc (ExitJson kw), snd Toy.first)
            /\ kw !! "changed" = Some (JBool true))
    by (eexists; split; vm_compute; reflexivity).
  destruct (ensure_present_existing_name Toy.ec2 Toy.clock Toy.create_web)
    as (Hfound & _ & Htwice).
  split; [exact Hfirst |].
  split; [vm_compute; reflexivity |].
  split.
  - refine (Hfound (snd Toy.first) (Toy.image "ami-c0" "available" None) []
              (fst (snd Toy.first)) "ami-c0" _ eq_refl).
    vm_compute; reflexivity.
  - destruct Hfirst as (kw & Hrun & _).
    exact (Htwice Toy.held (Toy.empty, []) kw (snd Toy.first) Toy_keeping Hrun).
Defined.

(** *** Polling for an image that never shows *)

(** C6: the code against the claim.  Both fetches of the new image are
    answered "InvalidAMIID.NotFound".  The loop completes its two
    iterations without seeing "available", and the run ends in an
    unbound-name error on [img] instead of the [fail_json] of line
    496. *)
Theorem polling_without_answer_crashes :
  wait_timeout Toy.create_web = 2
  /\ fst (Toy.run 0 Toy.create_web Toy.not_yet_visible)
     = Exc (UnboundLocalError "img")
  /\ snd (snd (Toy.run 0 Toy.create_web Toy.not_yet_visible))
     = [CallGetAllImages (Some "web");
        CallCreateImage (create_params Toy.create_web None);
        CallGetImage (Some "ami-c0"); CallSleep 1;
        CallGetImage (Some "ami-c0"); CallSleep 1].
Proof.
  split; [reflexivity |]. split; vm_compute; reflexivity.
Qed.

(** *** Failing tags and launch permissions *)

Lemma tag_and_permission_failures_witness :
  (create_image_calls Toy.ec2 Toy.create_web_tagged Toy.tagged
     = (Val (Bound "ami-c0"), Toy.tagged1)
   /\ create_image_wait Toy.ec2 Toy.clock Toy.create_web_tagged
        (Bound "ami-c0") Toy.tagged1 = (Val Toy.created_image, Toy.tagged2)
   /\ create_image Toy.ec2 Toy.clock Toy.create_web_tagged Toy.tagged =
        (Exc (FailJson (msg_only ("Image tagging failed => "
                                  +:+ boto_msg Toy.unauthorized))),
         (fst Toy.tagged2,
          snd Toy.tagged2 ++ [CallCreateTags (Some "ami-c0") {[ "Env" := "devel" ]}])))
  /\ (create_image_calls Toy.ec2 Toy.create_web_shared Toy.shared
        = (Val (Bound "ami-c0"), Toy.shared1)
      /\ create_image_wait Toy.ec2 Toy.clock Toy.create_web_shared
           (Bound "ami-c0") Toy.shared1 = (Val Toy.created_image, Toy.shared2)
      /\ create_image Toy.ec2 Toy.clock Toy.create_web_shared Toy.shared =
           (Exc (FailJson (permissions_failed Toy.unauthorized "ami-c0")),
            (fst Toy.shared2,
             snd Toy.shared2 ++
               [CallGetImage (Some "ami-c0");
                CallSetLaunchPermissions Toy.created_image
                  {[ "user_ids" := [PStr "111"] ]}]))).
Proof.
  assert (Ht1 : create_image_calls Toy.ec2 Toy.create_web_tagged Toy.tagged
                = (Val (Bound "ami-c0"), Toy.tagged1)) by (vm_compute; reflexivity).
  assert (Ht2 : create_image_wait Toy.ec2 Toy.clock Toy.create_web_tagged
                  (Bound "ami-c0") Toy.tagged1 = (Val Toy.created_image, Toy.tagged2))
    by (vm_compute; reflexivity).
  assert (Hs1 : create_image_calls Toy.ec2 Toy.create_web_shared Toy.shared
                = (Val (Bound "ami-c0"), Toy.shared1)) by (vm_compute; reflexivity).
  assert (Hs2 : create_image_wait Toy.ec2 Toy.clock Toy.create_web_shared
                  (Bound "ami-c0") Toy.shared1 = (Val Toy.created_image, Toy.shared2))
    by (vm_compute; reflexivity).
  split; (split; [assumption |]; split; [assumption |]).
  - destruct (tag_and_permission_failures Toy.ec2 Toy.clock _ _ _ _ _ _ Ht1 Ht2)
      as (Htags & _).
    refine (Htags {[ "Env" := "devel" ]} Toy.unauthorized (fst Toy.tagged2) eq_refl _ _).
    + intros H. apply (f_equal (fun m => m !! "Env")) in H. vm_compute in H.
      discriminate.
    + vm_compute; reflexivity.
  - destruct (tag_and_permission_failures Toy.ec2 Toy.clock _ _ _ _ _ _ Hs1 Hs2)
      as (_ & _ & Hperm & _).
    refine (Hperm {[ "user_ids" := [PStr "111"] ]} Toy.shared2 Toy.created_image
              (fst Toy.shared2) Toy.unauthorized (fst Toy.shared2) _ eq_refl _ _ _).
    + vm_compute; reflexivity.
    + intros H. apply (f_equal (fun m => m !! "user_ids")) in H. vm_compute in H.
      discriminate.
    + vm_compute; reflexivity.
    + vm_compute; reflexivity.
Defined.

(** *** Creating with both sources named *)

Lemma create_with_both_sources_witness :
  Ec2.create_image Toy.ec2 (create_params Toy.create_web_both None) Toy.empty
    = (Ok "ami-c0", Toy.created_world)
  /\ Ec2.register_image Toy.ec2 (register_params Toy.create_web_both None)
       Toy.created_world = (Ok "ami-r1", Toy.registered_world)
  /\ Toy.run 0 Toy.create_web_both Toy.empty =
       bind (create_image_wait Toy.ec2 Toy.clock Toy.create_web_both (Bound "ami-r1"))
            (create_image_finish Toy.ec2 Toy.create_web_both (Bound "ami-r1"))
         (Toy.registered_world,
          [] ++ [CallGetAllImages (name Toy.create_web_both);
                 CallCreateImage (create_params Toy.create_web_both None);
                 CallRegisterImage (register_params Toy.create_web_both None)])
  /\ snd (snd (Toy.run 0 Toy.create_web_both Toy.empty)) =
       [CallGetAllImages (Some "web");
        CallCreateImage (create_params Toy.create_web_both None);
        CallRegisterImage (register_params Toy.create_web_both None);
        CallGetImage (Some "ami-r1"); CallSleep 1].
Proof.
  split; [reflexivity |]. split; [reflexivity |].
  split; [| vm_compute; reflexivity].
  exact (proj1 (create_with_both_sources Toy.ec2 Toy.clock 0 Toy.create_web_both
                  (Toy.empty, []) Toy.empty None "ami-c0" Toy.created_world
                  "ami-r1" Toy.registered_world
                  eq_refl eq_refl eq_refl eq_refl eq_refl eq_refl eq_refl
                  eq_refl eq_refl eq_refl)).
Defined.

(** *** Granting launch permissions *)

Lemma update_launch_permissions_witness :
  launch_permissions Toy.share = Some {[ "user_ids" := [PInt 111] ]}
  /\ Ec2.get_image Toy.ec2 (image_id Toy.share) Toy.one_image
     = (Ok (Some Toy.ami1), Toy.one_image)
  /\ Ec2.get_launch_permissions Toy.ec2 Toy.ami1 Toy.one_image
     = (Ok ∅, Toy.one_image)
  /\ normalise_permissions {[ "user_ids" := [PInt 111] ]}
     = {[ "user_ids" := [PStr "111"] ]}
  /\ update_image Toy.ec2 Toy.share (Toy.one_image, []) =
       (Exc (ExitJson (updated (normalise_permissions {[ "user_ids" := [PInt 111] ]}) ∅)),
        (Toy.with_permissions
           (normalise_permissions {[ "user_ids" := [PInt 111] ]}) Toy.one_image,
         ([] ++ [CallGetImage (image_id Toy.share);
                 CallGetLaunchPermissions Toy.ami1]) ++
           [CallSetLaunchPermissions Toy.ami1
              (normalise_permissions {[ "user_ids" := [PInt 111] ]})])).
Proof.
  split; [reflexivity |]. split; [reflexivity |]. split; [reflexivity |].
  split; [vm_compute; reflexivity |].
  destruct (update_launch_permissions Toy.ec2 Toy.share
              {[ "user_ids" := [PInt 111] ]} (Toy.one_image, [])
              Toy.ami1 Toy.one_image ∅ Toy.one_image eq_refl eq_refl eq_refl)
    as (_ & Hgrant & _).
  refine (Hgrant _ _ (Ok tt) _ eq_refl).
  - intros H. apply (f_equal (fun m => m !! "user_ids")) in H.
    vm_compute in H. discriminate.
  - vm_compute; reflexivity.
Defined.

(** *** Registering with both sources *)

Lemma register_needs_exactly_one_source_witness :
  truthy (snapshot_id Toy.register_both)
    = truthy_list (device_mapping Toy.register_both)
  /\ source_rejection Toy.register_both
     = "device_mapping is mutually exclusive with snapshot_id"
  /\ Toy.run 0 Toy.register_both Toy.empty =
       (Exc (FailJson (msg_only (source_rejection Toy.register_both))),
        (Toy.empty, [])).
Proof.
  split; [reflexivity |]. split; [reflexivity |].
  exact (register_needs_exactly_one_source Toy.ec2 Toy.clock 0 Toy.register_both
           (Toy.empty, []) eq_refl eq_refl eq_refl eq_refl).
Defined.

(** *** Waiting for an image that stays *)


(** * More properties of the module *)

(** ** main: dispatch and checks *)

Section MainDispatch.
Context {W : Type}.
Variable ec2 : Ec2.connection W.
Variable clock : time.clock W.

(** X1. A [state] other than "absent" and "present" is not reported as an
    error: [main] returns without a report and without a call. *)
Theorem main_unknown_state_does_nothing fuel p s :
  state p <> "absent" ->
  state p <> "present" ->
  main ec2 clock true None fuel p s = (Val tt, s).
Proof.
  intros Ha Hp. unfold main.
  apply String.eqb_neq in Ha. apply String.eqb_neq in Hp.
  rewrite Ha, Hp. reflexivity.
Qed.

Lemma register_checks_valid p s :
  if valid_register p
  then register_checks (W := W) p s = (Val tt, s)
  else exists m, register_checks (W := W) p s = (Exc (FailJson (msg_only m)), s)
                 /\ In m rejections.
Proof.
  unfold valid_register, register_checks, when, fail_msg, fail_json, raise,
    bind, ret, rejections.
  destruct (truthy (virtualization_type p)); simpl;
    [| eexists; split; [reflexivity | simpl; tauto]].
  destruct (bool_decide (virtualization_type p ∈ _)); simpl;
    [| eexists; split; [reflexivity | simpl; tauto]].
  destruct (truthy (snapshot_id p)), (truthy_list (device_mapping p)); simpl;
    try (eexists; split; [reflexivity | simpl; tauto]).
  - destruct (bool_decide (architecture p ∈ _)); simpl;
      [| eexists; split; [reflexivity | simpl; tauto]].
    rewrite orb_true_r, andb_false_r. simpl.
    destruct (truthy (sriov_net_support p)); simpl; [| reflexivity].
    destruct (bool_decide (sriov_net_support p ∈ _)); simpl;
      [reflexivity | eexists; split; [reflexivity | simpl; tauto]].
  - destruct (bool_decide (architecture p ∈ _)); simpl;
      [| eexists; split; [reflexivity | simpl; tauto]].
    destruct (delete_root_volume_on_termination p); simpl;
      [eexists; split; [reflexivity | simpl; tauto] |].
    destruct (truthy (sriov_net_support p)); simpl; [| reflexivity].
    destruct (bool_decide (sriov_net_support p ∈ _)); simpl;
      [reflexivity | eexists; split; [reflexivity | simpl; tauto]].
Qed.

(** X2. For [state=present] and no permission update, the checks of [main]
    touch nothing: a request that meets the conditions of lines 647-685
    is handed to [create_image] as it is, and any other ends in
    [fail_json] with one of the ten messages, the world and the log
    being as before. *)
Theorem main_checks_then_creates fuel p s :
  state p = "present" ->
  truthy (image_id p) && truthy_dict (launch_permissions p) = false ->
  if accepted p
  then main ec2 clock true None fuel p s = create_image ec2 clock p s
  else exists m,
         main ec2 clock true None fuel p s = (Exc (FailJson (msg_only m)), s)
         /\ In m rejections.
Proof.
  intros Hst Hup. rewrite main_present by assumption.
  unfold accepted.
  destruct (bool_decide (action p ∈ ["create"; "register"])) eqn:Ea; simpl;
    [| eexists; split; [reflexivity | simpl; tauto]].
  unfold bind at 1. simpl.
  destruct (String.eqb (action p) "create") eqn:Ec; simpl.
  - apply String.eqb_eq in Ec. rewrite Ec. simpl.
    destruct (truthy (instance_id p)); simpl;
      [| eexists; split; [reflexivity | simpl; tauto]].
    unfold bind, when. simpl.
    destruct (truthy (name p)); simpl;
      [reflexivity | eexists; split; [reflexivity | simpl; tauto]].
  - unfold bind at 1. simpl.
    destruct (String.eqb (action p) "register") eqn:Er; simpl.
    + pose proof (register_checks_valid p s) as Hv.
      destruct (valid_register p); simpl.
      * unfold bind, when. simpl. rewrite Hv.
        destruct (truthy (name p)); simpl;
          [reflexivity | eexists; split; [reflexivity | simpl; tauto]].
      * destruct Hv as (m & Hm & Hin). exists m. split; [| exact Hin].
        unfold bind, when. simpl. now rewrite Hm.
    + apply bool_decide_eq_true in Ea.
      apply String.eqb_neq in Ec. apply String.eqb_neq in Er.
      rewrite !elem_of_cons, elem_of_nil in Ea. tauto.
Qed.

(** *** Which calls each operation can issue *)

Lemma emits_time_time P : (forall t, P (CallTime t)) -> emits P (time_time clock).
Proof.
  intros Ht s r s'. unfold time_time.
  destruct (time.time clock (fst s)) as [t w]. intros [= <- <-].
  now apply appends_call.
Qed.

Lemma emits_time_sleep P n : P (CallSleep n) -> emits P (time_sleep clock n).
Proof. intros Hn s r s' [= <- <-]. now apply appends_call. Qed.

Section DeregisterCalls.
Variable P : call -> Prop.
Variable p : params.
Hypothesis P_fetch : P (CallGetImage (image_id p)).
Hypothesis P_deregister :
  P (CallDeregisterImage (image_id p) (delete_snapshot p)).
Hypothesis P_time : forall t, P (CallTime t).
Hypothesis P_sleep : P (CallSleep 3).
Hypothesis P_delete : forall sid, P (CallDeleteSnapshot sid).

Lemma emits_wait_until_gone fuel deadline img :
  emits P (wait_until_gone ec2 clock fuel p deadline img).
Proof.
  revert img. induction fuel as [| fuel IH]; intros img; simpl.
  - do 2 steps_step.
    + unfold still_waiting. repeat steps_step. now apply emits_time_time.
    + repeat steps_step.
  - do 2 steps_step.
    + unfold still_waiting. repeat steps_step. now apply emits_time_time.
    + destruct a; repeat steps_step.
      * intros; now apply appends_call.
      * now apply emits_time_sleep.
      * apply IH.
Qed.

Lemma emits_delete_each snapshots : emits P (delete_each ec2 snapshots).
Proof.
  induction snapshots as [| sid rest IH]; simpl.
  - do 2 steps_step.
  - steps_step. steps_step;
      [steps_step; intros; now apply appends_call | apply IH].
Qed.

Lemma emits_deregister_image fuel :
  emits P (deregister_image ec2 clock fuel p).
Proof.
  unfold deregister_image, deregister_request, deregister_wait, delete_phase.
  do 2 steps_step.
  - repeat steps_step; intros; now apply appends_call.
  - steps_step.
    + repeat steps_step; try (intros; now apply appends_call);
        try (now apply emits_time_time).
      apply emits_wait_until_gone.
    + repeat steps_step. apply emits_delete_each.
Qed.
End DeregisterCalls.

Lemma emits_update_image P p :
  P (CallGetImage (image_id p)) ->
  (forall i, P (CallGetLaunchPermissions i)) ->
  (forall i d, P (CallSetLaunchPermissions i d)) ->
  (forall i d, P (CallRemoveLaunchPermissions i d)) ->
  emits P (update_image ec2 p).
Proof.
  intros H1 H2 H3 H4. unfold update_image.
  repeat steps_step; intros; now apply appends_call.
Qed.

(** [update_image] always ends the run: it never returns to [main]. *)
Lemma update_image_exits p s :
  exists e s', update_image ec2 p s = (Exc e, s').
Proof.
  unfold update_image.
  destruct (launch_permissions p) as [lp0 |]; [| eexists _, _; reflexivity].
  unfold bind at 1. unfold remote.
  destruct (Ec2.get_image ec2 (image_id p) (fst s)) as [[[i |] | e] w];
    try (eexists _, _; reflexivity).
  unfold try_except, bind, remote. cbn [fst snd].
  destruct (Ec2.get_launch_permissions ec2 i w) as [[cur | e] w1];
    [| eexists _, _; reflexivity].
  destruct (negb (bool_decide (cur = normalise_permissions lp0)));
    [| eexists _, _; reflexivity].
  destruct (has_nonempty "user_ids" (normalise_permissions lp0)
            || has_nonempty "group_names" (normalise_permissions lp0)).
  - cbn [fst snd].
    destruct (Ec2.set_launch_permissions ec2 i _ w1) as [[[] | e] w2];
      eexists _, _; reflexivity.
  - destruct (has_nonempty "user_ids" cur || has_nonempty "group_names" cur);
      [| eexists _, _; reflexivity].
    cbn [fst snd].
    destruct (Ec2.remove_launch_permissions ec2 i cur w1) as [[[] | e] w2];
      eexists _, _; reflexivity.
Qed.

(** X3. A request with [state=present], an [image_id] and launch
    permissions is a permission update and nothing else: [main] is
    [update_image], which ends the run, so the checks and [create_image]
    are never reached, whatever the other parameters; and the only
    calls are the fetch of that image, the reading of its permissions
    and a grant or a revoke. *)
Theorem main_permission_update fuel p s :
  state p = "present" ->
  truthy (image_id p) = true ->
  truthy_dict (launch_permissions p) = true ->
  main ec2 clock true None fuel p s = update_image ec2 p s
  /\ (exists e s', main ec2 clock true None fuel p s = (Exc e, s'))
  /\ emits (fun c => match c with
                    | CallGetImage i => i = image_id p
                    | CallGetLaunchPermissions _
                    | CallSetLaunchPermissions _ _
                    | CallRemoveLaunchPermissions _ _ => True
                    | _ => False
                    end)
       (main ec2 clock true None fuel p).
Proof.
  intros Hst Hid Hlp.
  assert (Hrun : forall s', main ec2 clock true None fuel p s'
                            = update_image ec2 p s').
  { intros s'. unfold main, when, bind, ret. rewrite Hst, Hid, Hlp. simpl.
    destruct (update_image_exits p s') as (e & s'' & ->). reflexivity. }
  split; [apply Hrun | split].
  - rewrite Hrun. apply update_image_exits.
  - intros s1 r s2. rewrite Hrun. now apply emits_update_image.
Qed.

(** X4. Unless [state] is "absent", [main] never deregisters an image and
    never deletes a snapshot, whatever the request and whatever the
    collaborators answer. *)
Theorem main_removes_only_when_absent HAS_BOTO connect_error fuel p :
  state p <> "absent" ->
  emits (fun c => is_destructive c = false)
    (main ec2 clock HAS_BOTO connect_error fuel p).
Proof.
  intros Ha. apply String.eqb_neq in Ha. unfold main. rewrite Ha.
  unfold when, fail_msg, register_checks, when, fail_msg.
  repeat steps_step; try (now apply emits_update_image);
    apply create_image_keeps.
Qed.

(** X5. With [state=absent], [main] changes the registry by deregistering
    the image named by [image_id] and by deleting snapshots only: every
    fetch and the deregistering call name that image, every sleep lasts
    three seconds, and no image is created, tagged or shared. *)
Theorem main_absent_only_deregisters HAS_BOTO connect_error fuel p :
  state p = "absent" ->
  emits (deregisters (image_id p))
    (main ec2 clock HAS_BOTO connect_error fuel p).
Proof.
  intros Ha. unfold main. rewrite Ha. simpl.
  unfold when, fail_msg.
  repeat steps_step. now apply emits_deregister_image.
Qed.
End MainDispatch.

(** ** deregister_image: its other ways to end *)

Section Deregister.
Context {W : Type}.
Variable ec2 : Ec2.connection W.
Variable clock : time.clock W.

(** X7. When the fetch returns an object without [id] (line 535), the image
    was deleted before: the run ends in [exit_json] with
    [changed=False], and neither a deregistering call nor a snapshot
    deletion is issued. *)
Theorem deregister_already_deleted fuel p s i w :
  Ec2.get_image ec2 (image_id p) (fst s) = (Ok (Some i), w) ->
  Image.id i = None ->
  deregister_image ec2 clock fuel p s =
    (Exc (ExitJson (already_deleted (image_id p))),
     (w, snd s ++ [CallGetImage (image_id p)]))
  /\ already_deleted (image_id p) !! "changed" = Some (JBool false).
Proof.
  intros Hget Hid. split; [| reflexivity].
  unfold deregister_image. erewrite bind_Exc; [reflexivity |].
  unfold deregister_request.
  erewrite bind_Val by (apply remote_Ok; exact Hget).
  cbn beta iota. rewrite Hid. reflexivity.
Qed.

(** X8. A deregistering call that raises ends the run in [fail_json] with
    "code: message": the image is not fetched again, nothing is waited
    for and no snapshot is deleted, even with [delete_snapshot] set. *)
Theorem deregister_call_fails fuel p s i iid w e w' :
  Ec2.get_image ec2 (image_id p) (fst s) = (Ok (Some i), w) ->
  Image.id i = Some iid ->
  Ec2.deregister_image ec2 (image_id p) (delete_snapshot p) w = (Err e, w') ->
  deregister_image ec2 clock fuel p s =
    (Exc (FailJson (msg_only (error_code e +:+ ": " +:+ error_message e))),
     (w', snd s ++ [CallGetImage (image_id p);
                    CallDeregisterImage (image_id p) (delete_snapshot p)])).
Proof.
  intros Hget Hid Hd.
  unfold deregister_image. erewrite bind_Exc; [reflexivity |].
  unfold deregister_request.
  erewrite bind_Val by (apply remote_Ok; exact Hget).
  cbn beta iota. rewrite Hid. unfold bind, try_except, remote. cbn [fst snd].
  rewrite Hd. simpl. now rewrite <- app_assoc.
Qed.

Lemma wait_until_gone_no_wait fuel p deadline img s :
  wait p = false ->
  wait_until_gone ec2 clock fuel p deadline img s = (Val img, s).
Proof.
  intros Hw. destruct fuel; simpl; unfold bind, still_waiting;
    rewrite Hw; reflexivity.
Qed.

(** X9. Without [wait], a deregistration that succeeds never sleeps and
    needs no fuel: after the deregistering call the image is fetched
    once and the clock is read once (lines 546-547), both for nothing,
    and with [delete_snapshot] unset the run ends in [exit_json] with
    [changed=True], whether the image is still retrievable or not. *)
Theorem deregister_without_waiting fuel p s0 snapshots s img w t w' :
  wait p = false ->
  delete_snapshot p = false ->
  deregister_request ec2 p s0 = (Val snapshots, s) ->
  Ec2.get_image ec2 (image_id p) (fst s) = (Ok img, w) ->
  time.time clock w = (t, w') ->
  deregister_image ec2 clock fuel p s0 =
    (Exc (ExitJson deregistered),
     (w', snd s ++ [CallGetImage (image_id p); CallTime t]))
  /\ deregistered !! "changed" = Some (JBool true)
  /\ deregistered !! "snapshots_deleted" = None.
Proof.
  intros Hw Hd Hreq Hget Ht. split; [| split; reflexivity].
  unfold deregister_image.
  erewrite bind_Val by exact Hreq.
  unfold deregister_wait.
  assert (Hwait : deregister_wait ec2 clock fuel p s =
                  (Val tt, (w', snd s ++ [CallGetImage (image_id p); CallTime t]))).
  { unfold deregister_wait.
    erewrite bind_Val by (apply remote_Ok; exact Hget).
    unfold bind at 1. unfold time_time at 1. cbn [fst snd]. rewrite Ht.
    unfold bind at 1. rewrite wait_until_gone_no_wait by assumption.
    rewrite Hw. now rewrite <- app_assoc. }
  fold (deregister_wait ec2 clock fuel p).
  erewrite bind_Val by exact Hwait.
  unfold delete_phase. rewrite Hd. reflexivity.
Qed.

Lemma delete_each_prefix snapshots s :
  exists r k w,
    delete_each ec2 snapshots s
      = (r, (w, snd s ++ map CallDeleteSnapshot (take k snapshots)))
    /\ (k <= length snapshots)%nat
    /\ (r = Val tt /\ k = length snapshots \/ exists e, r = Exc (Boto e)).
Proof.
  revert s. induction snapshots as [| sid rest IH]; intros s; simpl.
  - exists (Val tt), O, (fst s). simpl. rewrite app_nil_r.
    destruct s; simpl. repeat split; auto.
  - unfold bind, remote.
    destruct (Ec2.delete_snapshot ec2 sid (fst s)) as [[[] | e] w'].
    + destruct (IH (w', snd s ++ [CallDeleteSnapshot sid]))
        as (r & k & w & Hrun & Hk & Hr).
      exists r, (S k), w. rewrite Hrun. simpl. rewrite <- app_assoc. simpl.
      split; [reflexivity |]. split; [lia |].
      destruct Hr as [[-> ->] | Hr]; [left; split; reflexivity | now right].
    + exists (Exc (Boto e)), 1%nat, w'. simpl.
      split; [reflexivity |]. split; [lia | right; eauto].
Qed.

(** X10. With [delete_snapshot] set, the deletions are tried in the order of
    the captured list and stop at the first that raises: the calls are
    those of a prefix of the list, while the report still names every
    captured snapshot as deleted.  In particular, when the first
    deletion raises, it is the only one tried. *)
Theorem delete_phase_stops_at_first_failure p snapshots s :
  delete_snapshot p = true ->
  (exists k w,
     delete_phase ec2 p snapshots s =
       (Exc (ExitJson (deregistered_with snapshots)),
        (w, snd s ++ map CallDeleteSnapshot (take k snapshots)))
     /\ (k <= length snapshots)%nat)
  /\ (forall sid rest e w,
        snapshots = sid :: rest ->
        Ec2.delete_snapshot ec2 sid (fst s) = (Err e, w) ->
        delete_phase ec2 p snapshots s =
          (Exc (ExitJson (deregistered_with snapshots)),
           (w, snd s ++ [CallDeleteSnapshot sid])))
  /\ deregistered_with snapshots !! "snapshots_deleted"
     = Some (JList (map jopt snapshots)).
Proof.
  intros Hd. split; [| split; [| reflexivity]].
  - destruct (delete_each_prefix snapshots s) as (r & k & w & Hrun & Hk & Hr).
    exists k, w. split; [| exact Hk].
    unfold delete_phase. rewrite Hd.
    destruct Hr as [[-> _] | [e ->]].
    + erewrite bind_Val; [reflexivity |]. apply try_except_Val. exact Hrun.
    + erewrite bind_Val; [reflexivity |].
      erewrite try_except_caught; [| exact Hrun | reflexivity].
      now destruct (String.eqb _ _).
  - intros sid rest e w -> Herr.
    unfold delete_phase. rewrite Hd.
    erewrite bind_Val; [reflexivity |].
    erewrite try_except_caught; [| | reflexivity].
    + now destruct (String.eqb _ _).
    + simpl. erewrite bind_Exc; [reflexivity |].
      apply remote_Err. exact Herr.
Qed.

(** X11. With [wait] set and a [wait_timeout] of zero or less, a
    deregistration that succeeded is always reported as timed out, even
    when the image is already gone: the deadline is the first reading,
    so the loop does no round and the check of line 551 fails the run.
    The clock is read three times and nothing else is called. *)
Theorem deregister_zero_timeout_times_out fuel p s0 snapshots s img w :
  wait p = true ->
  wait_timeout p <= 0 ->
  steady clock ->
  deregister_request ec2 p s0 = (Val snapshots, s) ->
  Ec2.get_image ec2 (image_id p) (fst s) = (Ok img, w) ->
  exists t0 t1 t2 w',
    deregister_image ec2 clock fuel p s0 =
      (Exc (FailJson (msg_only timed_out_msg)),
       (w', snd s ++ [CallGetImage (image_id p);
                      CallTime t0; CallTime t1; CallTime t2])).
Proof.
  intros Hw Hz Hsteady Hreq Hget.
  destruct (time.time clock w) as [t0 w1] eqn:E0.
  destruct (time.time clock w1) as [t1 w2] eqn:E1.
  destruct (time.time clock w2) as [t2 w3] eqn:E2.
  pose proof (Hsteady _ _ _ _ _ E0 E1) as H01.
  pose proof (Hsteady _ _ _ _ _ E1 E2) as H12.
  assert (Hq : (inject_Z (wait_timeout p) <= 0)%Q).
  { change 0%Q with (inject_Z 0). now rewrite <- Zle_Qle. }
  assert (Hd1 : Qle_bool (t0 + inject_Z (wait_timeout p)) t1 = true)
    by (apply Qle_bool_iff; lra).
  assert (Hd2 : Qle_bool (t0 + inject_Z (wait_timeout p)) t2 = true)
    by (apply Qle_bool_iff; lra).
  exists t0, t1, t2, w3.
  unfold deregister_image.
  erewrite bind_Val by exact Hreq.
  erewrite bind_Exc; [reflexivity |].
  unfold deregister_wait.
  erewrite bind_Val by (apply remote_Ok; exact Hget).
  unfold bind at 1. unfold time_time at 1. cbn [fst snd]. rewrite E0.
  assert (Hloop : forall l,
            wait_until_gone ec2 clock fuel p
              (t0 + inject_Z (wait_timeout p)) img (w1, l)
            = (Val img, (w2, l ++ [CallTime t1]))).
  { intros l. destruct fuel; simpl; unfold bind, still_waiting;
      rewrite Hw; unfold bind, time_time; cbn [fst snd];
      rewrite E1, Hd1; reflexivity. }
  unfold bind at 1. rewrite Hloop. rewrite Hw.
  unfold bind, time_time. cbn [fst snd]. rewrite E2, Hd2.
  unfold fail_json, raise. now rewrite <- !app_assoc.
Qed.
End Deregister.

(** ** create_image: the block device mapping *)

Lemma bdm_set_keys k v m k' :
  k' ∈ (bdm_set k v m).*1 <-> k' = k \/ k' ∈ m.*1.
Proof.
  induction m as [| [k0 v0] m IH]; simpl.
  - rewrite list_elem_of_singleton, elem_of_nil. tauto.
  - destruct (decide (k0 = k)) as [-> | Hne]; simpl.
    + rewrite !elem_of_cons. tauto.
    + rewrite !elem_of_cons, IH. tauto.
Qed.

Lemma bdm_set_NoDup k v m : NoDup m.*1 -> NoDup (bdm_set k v m).*1.
Proof.
  induction m as [| [k0 v0] m IH]; simpl; intros Hm.
  - apply NoDup_singleton.
  - apply NoDup_cons in Hm as [Hnotin Hm].
    destruct (decide (k0 = k)) as [-> | Hne]; simpl.
    + now apply NoDup_cons.
    + apply NoDup_cons. split; [| now apply IH].
      rewrite bdm_set_keys. intros [-> | Hin]; [congruence | contradiction].
Qed.

Lemma bdm_set_entries k v m k' v' :
  (k', v') ∈ bdm_set k v m -> (k', v') = (k, v) \/ (k', v') ∈ m.
Proof.
  induction m as [| [k0 v0] m IH]; simpl.
  - rewrite list_elem_of_singleton. tauto.
  - destruct (decide (k0 = k)) as [-> | Hne]; rewrite !elem_of_cons.
    + tauto.
    + intros [H | H]; [tauto | apply IH in H; tauto].
Qed.

Lemma bdm_set_lookup k v m : NoDup m.*1 -> (k, v) ∈ bdm_set k v m.
Proof.
  induction m as [| [k0 v0] m IH]; simpl; intros Hm.
  - apply list_elem_of_singleton. reflexivity.
  - apply NoDup_cons in Hm as [_ Hm].
    destruct (decide (k0 = k)); rewrite elem_of_cons; [now left | right; auto].
Qed.

Lemma build_bdm_invariant devices :
  forall m0 m,
    build_bdm devices m0 = Some m ->
    NoDup m0.*1 ->
    NoDup m.*1
    /\ (forall k v, (k, v) ∈ m ->
          (k, v) ∈ m0
          \/ exists d, d ∈ devices /\ d !! "device_name" = Some k
                       /\ v = delete "device_name" d)
    /\ (forall k, k ∈ m0.*1 -> k ∈ m.*1)
    /\ (forall d, d ∈ devices ->
          exists k, d !! "device_name" = Some k /\ k ∈ m.*1).
Proof.
  induction devices as [| d rest IH]; simpl; intros m0 m Hb Hnd.
  - injection Hb as <-. repeat split; auto.
    intros d Hd. now apply elem_of_nil in Hd.
  - destruct (d !! "device_name") as [k |] eqn:Hk; [| discriminate].
    destruct (IH _ _ Hb (bdm_set_NoDup k _ _ Hnd)) as (H1 & H2 & H3 & H4).
    split; [exact H1 |]. split; [| split].
    + intros k' v' Hin. destruct (H2 _ _ Hin) as [Hset | (d' & Hd' & Hn & Hv)].
      * apply bdm_set_entries in Hset as [[= -> ->] | Hold]; [| now left].
        right. exists d. rewrite elem_of_cons. auto.
      * right. exists d'. rewrite elem_of_cons. auto.
    + intros k' Hin. apply H3. apply bdm_set_keys. now right.
    + intros d' Hd'. apply elem_of_cons in Hd' as [-> | Hd'].
      * exists k. split; [exact Hk |]. apply H3. apply bdm_set_keys. now left.
      * now apply H4.
Qed.

Lemma build_bdm_refuses devices :
  forall m0,
    build_bdm devices m0 = None
    <-> Exists (fun d => d !! "device_name" = None) devices.
Proof.
  induction devices as [| d rest IH]; simpl; intros m0.
  - rewrite Exists_nil. split; [discriminate | tauto].
  - rewrite Exists_cons. destruct (d !! "device_name") as [k |] eqn:Hk.
    + rewrite IH. split; [tauto | intros [? | ?]; [discriminate | assumption]].
    + tauto.
Qed.

Lemma request_mapping_without_name p devices :
  device_mapping p = Some devices ->
  Exists (fun d => d !! "device_name" = None) devices ->
  request_mapping p = None.
Proof.
  intros Hdev Hex. unfold request_mapping. rewrite Hdev.
  destruct devices as [| d ds]; [now apply Exists_nil in Hex |].
  now rewrite (proj2 (build_bdm_refuses (d :: ds) []) Hex).
Qed.



(** ** create_image: its other ways to end *)

Section Create.
Context {W : Type}.
Variable ec2 : Ec2.connection W.
Variable clock : time.clock W.


(** X16. An error of the lookup by name, whatever its class, ends the run
    in [fail_json] with "code: message", and nothing else is called. *)
Theorem create_image_lookup_fails p s e w :
  Ec2.get_all_images ec2 (name p) (fst s) = (Err e, w) ->
  create_image ec2 clock p s =
    (Exc (FailJson (msg_only (error_code e +:+ ": " +:+ error_message e))),
     (w, snd s ++ [CallGetAllImages (name p)])).
Proof.
  intros Hlook.
  unfold create_image. erewrite bind_Exc; [reflexivity |].
  unfold create_image_calls.
  erewrite try_except_caught; [reflexivity | | reflexivity].
  erewrite bind_Exc; [reflexivity |].
  apply remote_Err. exact Hlook.
Qed.

(** X17. A create call that raises ends the run in [fail_json] with
    "code: message": the register call is not tried, even if the
    request names a snapshot, and the image is not polled for. *)
Theorem create_image_create_call_fails p s w mapping e w' :
  Ec2.get_all_images ec2 (name p) (fst s) = (Ok [], w) ->
  request_mapping p = Some mapping ->
  truthy (instance_id p) = true ->
  Ec2.create_image ec2 (create_params p mapping) w = (Err e, w') ->
  create_image ec2 clock p s =
    (Exc (FailJson (msg_only (error_code e +:+ ": " +:+ error_message e))),
     (w', snd s ++ [CallGetAllImages (name p);
                    CallCreateImage (create_params p mapping)])).
Proof.
  intros Hlook Hmap Hi Hc.
  unfold create_image. erewrite bind_Exc; [reflexivity |].
  unfold create_image_calls, try_except, bind, remote.
  rewrite Hlook. cbn [fst snd]. rewrite Hmap. unfold ret at 1 2.
  cbn [fst snd]. rewrite Hi. cbn [fst snd]. rewrite Hc. simpl.
  now rewrite <- app_assoc.
Qed.

Lemma create_image_calls_log p s r s' :
  create_image_calls ec2 p s = (r, s') ->
  exists creations,
    snd s' = snd s ++ CallGetAllImages (name p) :: creations
    /\ creations `prefix_of` planned_creations p
    /\ (forall iid, r = Val (Bound iid) ->
          creations = planned_creations p /\ creations <> [])
    /\ (r = Val Unbound -> creations = []).
Proof.
  unfold create_image_calls, try_except, bind, remote, get_id, planned_creations.
  destruct (Ec2.get_all_images ec2 (name p) (fst s)) as [[[| i rest] | e] w];
    cbn [fst snd].
  2: { destruct (Image.id i); simpl; intros [= <- <-]; exists [];
       (split; [reflexivity |]); (split; [apply prefix_nil |]);
       split; intros; discriminate || reflexivity. }
  2: { simpl. intros [= <- <-]. exists [].
       (split; [reflexivity |]); (split; [apply prefix_nil |]);
       split; intros; discriminate || reflexivity. }
  destruct (request_mapping p) as [mapping |]; simpl.
  2: { intros [= <- <-]. exists [].
       (split; [reflexivity |]); (split; [apply prefix_nil |]);
       split; intros; discriminate || reflexivity. }
  destruct (truthy (instance_id p)); simpl.
  - destruct (Ec2.create_image ec2 (create_params p mapping) w)
      as [[id1 | e] w1]; simpl.
    + destruct (truthy (snapshot_id p)); simpl.
      * destruct (Ec2.register_image ec2 (register_params p mapping) w1)
          as [[id2 | e] w2]; simpl; intros [= <- <-]; simpl;
          rewrite <- !app_assoc; simpl; eexists;
          (split; [reflexivity |]); (split; [try reflexivity; now eexists |]);
          split; intros; try discriminate; split; [reflexivity | discriminate].
      * intros [= <- <-]; simpl; rewrite <- !app_assoc; simpl; eexists;
          (split; [reflexivity |]); (split; [reflexivity |]);
          split; intros; try discriminate; split; [reflexivity | discriminate].
    + intros [= <- <-]; simpl; rewrite <- !app_assoc; simpl; eexists;
        (split; [reflexivity |]); (split; [now eexists |]);
        split; intros; discriminate.
  - destruct (truthy (snapshot_id p)); simpl.
    + destruct (Ec2.register_image ec2 (register_params p mapping) w)
        as [[id2 | e] w2]; simpl; intros [= <- <-]; simpl;
        rewrite <- !app_assoc; simpl; eexists;
        (split; [reflexivity |]); (split; [reflexivity |]);
        split; intros; try discriminate; split; [reflexivity | discriminate].
    + intros [= <- <-]. exists [].
      (split; [reflexivity |]); (split; [reflexivity |]);
      split; intros; discriminate || reflexivity.
Qed.

(** X18. The calls of any run of [create_image], in their order: the lookup
    by name comes first; then a prefix of the creating calls the request
    plans, so at most one create call and at most one register call, in
    this order; every later call is a fetch or a tagging of one image
    id, a sleep of one second or a grant of launch permissions. *)
Theorem create_image_call_order p s r s' :
  create_image ec2 clock p s = (r, s') ->
  exists creations follow iid,
    snd s' = snd s ++ CallGetAllImages (name p) :: creations ++ follow
    /\ creations `prefix_of` planned_creations p
    /\ Forall (follows_up iid) follow.
Proof.
  unfold create_image. unfold bind at 1.
  destruct (create_image_calls ec2 p s) as [x s1] eqn:E1.
  destruct (create_image_calls_log _ _ _ _ E1) as (creations & Hlog & Hpre & _).
  destruct x as [[| iid] | e |].
  - fold (bind (create_image_wait ec2 clock p Unbound)
               (create_image_finish ec2 p Unbound)).
    unfold bind. rewrite create_image_wait_unbound.
    destruct (0 <? wait_timeout p); intros [= <- <-]; simpl.
    + exists creations, [CallSleep 1], "". rewrite Hlog.
      rewrite <- app_assoc. simpl. split; [reflexivity |].
      split; [exact Hpre | now repeat constructor].
    + exists creations, [], "". rewrite Hlog, app_nil_r. auto.
  - intros Hrun.
    destruct (emits_follow_up ec2 clock p iid _ _ _ Hrun) as (l & Hl & HP).
    exists creations, l, iid. rewrite Hl, Hlog, <- app_assoc. simpl. auto.
  - intros [= <- <-]. exists creations, [], "". rewrite Hlog, app_nil_r. auto.
  - intros [= <- <-]. exists creations, [], "". rewrite Hlog, app_nil_r. auto.
Qed.


(** X20. With a [wait_timeout] of zero or less the loop of line 483 does no
    iteration: whatever was created, the run ends in an unbound-name
    error on [img] at line 495, with no call after the creating ones. *)
Theorem create_image_zero_wait_timeout p s image_id s1 :
  create_image_calls ec2 p s = (Val image_id, s1) ->
  wait_timeout p <= 0 ->
  create_image ec2 clock p s = (Exc (UnboundLocalError "img"), s1).
Proof.
  intros Hcalls Hwt. unfold create_image.
  erewrite bind_Val by exact Hcalls.
  erewrite bind_Exc; [reflexivity |].
  unfold create_image_wait. rewrite range_nonpos by assumption.
  reflexivity.
Qed.

(** X21. A fetch that answers [None] for the new image makes [img.state]
    (line 487) raise an attribute error, which no handler of the loop
    catches: the run ends with it after the sleep of the [finally]
    clause, in the first iteration. *)
Theorem create_image_fetch_answers_none p s0 iid s1 w :
  create_image_calls ec2 p s0 = (Val (Bound iid), s1) ->
  0 < wait_timeout p ->
  Ec2.get_image ec2 (Some iid) (fst s1) = (Ok None, w) ->
  create_image ec2 clock p s0 =
    (Exc (AttributeError "state"),
     (time.sleep clock 1 w, snd s1 ++ fetch_rounds iid 1)).
Proof.
  intros Hcalls Hwt Hget. unfold create_image.
  erewrite bind_Val by exact Hcalls.
  erewrite bind_Exc; [reflexivity |].
  unfold create_image_wait.
  destruct (range_pos _ Hwt) as [rest ->].
  erewrite bind_Exc; [reflexivity |].
  simpl.
  unfold bind, poll_once, try_finally, try_except, bind, remote, time_sleep.
  simpl. rewrite Hget. simpl. now rewrite <- app_assoc.
Qed.

Lemma poll_without_wait p image_id :
  wait p = false ->
  forall indices img s kw s',
    poll ec2 clock p image_id indices img s <> (Exc (FailJson kw), s').
Proof.
  intros Hw. induction indices as [| i rest IH]; intros img s kw s'; simpl.
  - discriminate.
  - unfold bind at 1.
    destruct (poll_once ec2 clock p image_id i img s) as [x s1] eqn:E.
    destruct x as [[[] img'] | e |]; simpl; try apply IH; try discriminate.
    intros [= -> <-].
    unfold poll_once, try_finally, try_except, bind, remote, time_sleep,
      read_local, get_state in E.
    rewrite Hw in E.
    destruct image_id as [| iid]; simpl in E; [discriminate |].
    destruct (Ec2.get_image ec2 (Some iid) (fst s)) as [[[im |] | e] w];
      simpl in E; try discriminate.
    + destruct (String.eqb _ _); discriminate.
    + destruct (is_EC2ResponseError e); simpl in E; [| discriminate].
      rewrite andb_false_r in E. discriminate.
Qed.

(** X22. Without [wait], no error of a fetch is ever reported by the polling
    phase: the only [fail_json] it can end in is the one of line 496,
    with the bare message. *)
Theorem create_image_wait_reports_no_error p image_id s kw s' :
  wait p = false ->
  create_image_wait ec2 clock p image_id s = (Exc (FailJson kw), s') ->
  kw = msg_only find_msg.
Proof.
  intros Hw. unfold create_image_wait. unfold bind at 1.
  destruct (poll ec2 clock p image_id (range (wait_timeout p)) Unbound s)
    as [x s1] eqn:E.
  destruct x as [[| [im |]] | e |]; simpl.
  - discriminate.
  - unfold bind, ret. simpl.
    destruct (negb (String.eqb (Image.state im) "available"));
      [now intros [= <- <-] | discriminate].
  - discriminate.
  - intros [= -> <-]. now apply poll_without_wait in E.
  - discriminate.
Qed.
End Create.

(** ** update_image, and the reports *)

(** X23. Line 578 turns every user id into its string: afterwards all user
    ids are strings, every other key is as it was, and doing it twice
    changes nothing more. *)
Theorem normalise_permissions_strings lp :
  normalise_permissions (normalise_permissions lp) = normalise_permissions lp
  /\ (forall k, k <> "user_ids" -> normalise_permissions lp !! k = lp !! k)
  /\ (forall l, normalise_permissions lp !! "user_ids" = Some l ->
        Forall (fun u => exists s, u = PStr s) l
        /\ exists l0, lp !! "user_ids" = Some l0 /\ map py_str l0 = map py_str l)
  /\ (normalise_permissions lp !! "user_ids" = None <-> lp !! "user_ids" = None).
Proof.
  unfold normalise_permissions.
  destruct (lp !! "user_ids") as [l0 |] eqn:E.
  - rewrite lookup_insert_eq.
    split; [| split; [| split]].
    + rewrite insert_insert_eq. f_equal.
      rewrite map_map. apply map_ext. reflexivity.
    + intros k Hk. now rewrite lookup_insert_ne.
    + intros l [= <-]. split.
      * apply Forall_forall. intros u Hu.
        apply list_elem_of_In, in_map_iff in Hu as (u0 & <- & _). eauto.
      * exists l0. split; [reflexivity |].
        rewrite map_map. apply map_ext. reflexivity.
    + split; discriminate.
  - rewrite E. repeat split; try tauto; discriminate.
Qed.

Section Update.
Context {W : Type}.
Variable ec2 : Ec2.connection W.
Variable clock : time.clock W.

(** X24. An image that does not exist ends [update_image] in [fail_json]
    with [changed=False] once it was fetched; an error while reading its
    current permissions ends it in [fail_json] with "code: message".
    In both cases no permission is granted or revoked. *)
Theorem update_image_cannot_read p lp s :
  launch_permissions p = Some lp ->
  (forall w,
     Ec2.get_image ec2 (image_id p) (fst s) = (Ok None, w) ->
     update_image ec2 p s =
       (Exc (FailJson (does_not_exist (image_id p))),
        (w, snd s ++ [CallGetImage (image_id p)])))
  /\ (forall img w1 e w2,
        Ec2.get_image ec2 (image_id p) (fst s) = (Ok (Some img), w1) ->
        Ec2.get_launch_permissions ec2 img w1 = (Err e, w2) ->
        update_image ec2 p s =
          (Exc (FailJson (msg_only (error_code e +:+ ": " +:+ error_message e))),
           (w2, snd s ++ [CallGetImage (image_id p);
                          CallGetLaunchPermissions img]))).
Proof.
  intros Hlp. split.
  - intros w Hget. unfold update_image. rewrite Hlp.
    erewrite bind_Val by (apply remote_Ok; exact Hget). reflexivity.
  - intros img w1 e w2 Hget Hperm. unfold update_image. rewrite Hlp.
    erewrite bind_Val by (apply remote_Ok; exact Hget).
    cbn beta iota.
    unfold try_except, bind, remote. cbn [fst snd]. rewrite Hperm. simpl.
    now rewrite <- app_assoc.
Qed.

(** X12. The first fetch of the image stands outside every [try] (lines 523
    and 580): an error it raises is not turned into [fail_json] but
    leaves [deregister_image] and [update_image] as it is, with nothing
    else called. *)
Theorem fetch_errors_are_not_reported fuel p s e w :
  Ec2.get_image ec2 (image_id p) (fst s) = (Err e, w) ->
  deregister_image ec2 clock fuel p s =
    (Exc (Boto e), (w, snd s ++ [CallGetImage (image_id p)]))
  /\ (forall lp,
        launch_permissions p = Some lp ->
        update_image ec2 p s =
          (Exc (Boto e), (w, snd s ++ [CallGetImage (image_id p)]))).
Proof.
  intros Hget. split.
  - unfold deregister_image. erewrite bind_Exc; [reflexivity |].
    unfold deregister_request. erewrite bind_Exc; [reflexivity |].
    apply remote_Err. exact Hget.
  - intros lp Hlp. unfold update_image. rewrite Hlp.
    erewrite bind_Exc; [reflexivity |].
    apply remote_Err. exact Hget.
Qed.

(** X25. [get_ami_info] calls nothing and, for an image with an [id],
    returns fourteen fields, none of them [msg] or [changed]: the
    keywords of the report of line 510 never collide, and the report
    has the sixteen of them.  For an object without [id] it raises an
    attribute error. *)
Theorem get_ami_info_fields img (s : st W) :
  match Image.id img with
  | Some i =>
      exists info,
        get_ami_info img s = (Val info, s)
        /\ size info = 14%nat
        /\ info !! "msg" = None
        /\ info !! "changed" = None
        /\ size (created info) = 16%nat
        /\ info !! "image_id" = Some (JStr i)
        /\ info !! "state" = Some (JStr (Image.state img))
        /\ info !! "block_device_mapping"
           = Some (get_block_device_mapping (Some img))
  | None => get_ami_info img s = (Exc (AttributeError "id"), s)
  end.
Proof.
  unfold get_ami_info, get_id, bind, ret, raise.
  destruct (Image.id img) as [i |]; [| now destruct s].
  eexists. split; [reflexivity |].
  assert (Hsize : forall info : kwargs,
            info !! "msg" = None -> info !! "changed" = None ->
            size (created info) = S (S (size info))).
  { intros info Hm Hc. unfold created.
    rewrite map_size_insert_None
      by (rewrite lookup_insert_ne by discriminate; exact Hm).
    now rewrite map_size_insert_None. }
  split; [| split; [| split; [| split]]].
  - repeat (rewrite map_size_insert_None;
            [| repeat (rewrite lookup_insert_ne by discriminate);
               apply lookup_empty]).
    now rewrite map_size_empty.
  - repeat (rewrite lookup_insert_ne by discriminate). apply lookup_empty.
  - repeat (rewrite lookup_insert_ne by discriminate). apply lookup_empty.
  - rewrite Hsize.
    + do 2 f_equal.
    + repeat (rewrite lookup_insert_ne by discriminate). apply lookup_empty.
    + repeat (rewrite lookup_insert_ne by discriminate). apply lookup_empty.
  - split; [apply lookup_insert_eq |].
    split.
    + rewrite lookup_insert_ne by discriminate. apply lookup_insert_eq.
    + do 3 (rewrite lookup_insert_ne by discriminate). apply lookup_insert_eq.
Qed.
End Update.

(** X26. [get_block_device_mapping] reports one entry per device of the
    image, in the order of the mapping and under the same names, and the
    [snapshot_id] fields of these entries are the snapshot ids that
    [deregister_image] captures for deletion (lines 528-531), in the same
    order. *)
Theorem reported_snapshots_are_those_deleted img :
  exists entries,
    get_block_device_mapping (Some img) = JDict entries
    /\ map fst entries
       = map fst (default [] (Image.block_device_mapping img))
    /\ Forall2 (fun entry sid =>
                  exists fields,
                    snd entry = JDict fields
                    /\ map fst fields
                       = ["size"; "snapshot_id"; "volume_type"; "encrypted";
                          "delete_on_termination"]
                    /\ (fields !! 1%nat) = Some ("snapshot_id", jopt sid))
         entries (collect_snapshots img).
Proof.
  unfold get_block_device_mapping, collect_snapshots.
  destruct (Image.block_device_mapping img) as [m |]; simpl.
  - eexists. split; [reflexivity |]. split.
    + rewrite map_map. apply map_ext. reflexivity.
    + induction m as [| [k v] m IH]; simpl; constructor; [| exact IH].
      eexists. split; [reflexivity |]. split; reflexivity.
  - exists []. repeat split. constructor.
Qed.

Section Guards.
Context {W : Type}.
Variable ec2 : Ec2.connection W.
Variable clock : time.clock W.

(** X6. [main] refuses to go on, before any call is made and whatever the
    request: without boto; else without a connection; else, for
    [state=absent], without an [image_id]. *)
Theorem main_refuses_before_any_call HAS_BOTO connect_error fuel p s :
  (HAS_BOTO = false ->
     main ec2 clock HAS_BOTO connect_error fuel p s =
       (Exc (FailJson (msg_only "boto required for this module")), s))
  /\ (forall e,
        HAS_BOTO = true -> connect_error = Some e ->
        main ec2 clock HAS_BOTO connect_error fuel p s =
          (Exc (FailJson (msg_only ("Error while connecting to aws: " +:+ e))),
           s))
  /\ (HAS_BOTO = true -> connect_error = None ->
      state p = "absent" -> truthy (image_id p) = false ->
      main ec2 clock HAS_BOTO connect_error fuel p s =
        (Exc (FailJson (msg_only
           "image_id needs to be an ami image to registered/delete")), s)).
Proof.
  split; [| split].
  - intros ->. reflexivity.
  - intros e -> ->. reflexivity.
  - intros -> -> Hst Hid. unfold main. simpl.
    unfold bind at 1. unfold ret at 1. unfold bind at 1. unfold ret at 1.
    rewrite Hst. simpl. rewrite Hid. reflexivity.
Qed.
End Guards.

(** ** The further properties at work *)

Lemma Toy_steady : steady Toy.clock.
Proof. intros w t w' t' w'' [= <- <-] [= <- <-]. apply Qle_refl. Qed.

(** *** main *)

Lemma main_unknown_state_does_nothing_witness :
  state Toy.stop_web <> "absent"
  /\ state Toy.stop_web <> "present"
  /\ Toy.run 0 Toy.stop_web Toy.one_image = (Val tt, (Toy.one_image, [])).
Proof.
  assert (H1 : state Toy.stop_web <> "absent") by discriminate.
  assert (H2 : state Toy.stop_web <> "present") by discriminate.
  split; [exact H1 |]. split; [exact H2 |].
  exact (main_unknown_state_does_nothing Toy.ec2 Toy.clock 0 Toy.stop_web
           (Toy.one_image, []) H1 H2).
Defined.

Lemma main_checks_then_creates_witness :
  state Toy.create_web = "present"
  /\ truthy (image_id Toy.create_web)
     && truthy_dict (launch_permissions Toy.create_web) = false
  /\ accepted Toy.create_web = true
  /\ Toy.run 0 Toy.create_web Toy.empty = Toy.first.
Proof.
  split; [reflexivity |]. split; [reflexivity |].
  split; [vm_compute; reflexivity |].
  exact (main_checks_then_creates Toy.ec2 Toy.clock 0 Toy.create_web
           (Toy.empty, []) eq_refl eq_refl).
Defined.

Lemma main_permission_update_witness :
  state Toy.share = "present"
  /\ truthy (image_id Toy.share) = true
  /\ truthy_dict (launch_permissions Toy.share) = true
  /\ Toy.run 0 Toy.share Toy.one_image
     = update_image Toy.ec2 Toy.share (Toy.one_image, []).
Proof.
  split; [reflexivity |]. split; [reflexivity |].
  split; [vm_compute; reflexivity |].
  refine (proj1 (main_permission_update Toy.ec2 Toy.clock 0 Toy.share
                   (Toy.one_image, []) eq_refl eq_refl _)).
  vm_compute; reflexivity.
Defined.

Lemma main_removes_only_when_absent_witness :
  state Toy.create_web <> "absent"
  /\ emits (fun c => is_destructive c = false)
       (main Toy.ec2 Toy.clock true None 0 Toy.create_web).
Proof.
  assert (H : state Toy.create_web <> "absent") by discriminate.
  split; [exact H |].
  exact (main_removes_only_when_absent Toy.ec2 Toy.clock true None 0
           Toy.create_web H).
Defined.

Lemma main_absent_only_deregisters_witness :
  state Toy.deregister = "absent"
  /\ emits (deregisters (Some "ami-1"))
       (main Toy.ec2 Toy.clock true None 0 Toy.deregister).
Proof.
  split; [reflexivity |].
  exact (main_absent_only_deregisters Toy.ec2 Toy.clock true None 0
           Toy.deregister eq_refl).
Defined.

Lemma main_refuses_before_any_call_witness :
  main Toy.ec2 Toy.clock false None 0 Toy.create_web (Toy.empty, [])
    = (Exc (FailJson (msg_only "boto required for this module")),
       (Toy.empty, []))
  /\ main Toy.ec2 Toy.clock true (Some "no route") 0 Toy.create_web
       (Toy.empty, [])
     = (Exc (FailJson (msg_only "Error while connecting to aws: no route")),
        (Toy.empty, [])).
Proof.
  split.
  - exact (proj1 (main_refuses_before_any_call Toy.ec2 Toy.clock false None 0
                    Toy.create_web (Toy.empty, [])) eq_refl).
  - exact (proj1 (proj2 (main_refuses_before_any_call Toy.ec2 Toy.clock true
                           (Some "no route") 0 Toy.create_web (Toy.empty, [])))
             "no route" eq_refl eq_refl).
Defined.

(** *** deregister_image *)

Lemma deregister_already_deleted_witness :
  Ec2.get_image Toy.ec2 (image_id Toy.deregister) Toy.already_gone
    = (Ok (Some Toy.ghost), Toy.empty)
  /\ Image.id Toy.ghost = None
  /\ deregister_image Toy.ec2 Toy.clock 0 Toy.deregister (Toy.already_gone, [])
     = (Exc (ExitJson (already_deleted (Some "ami-1"))),
        (Toy.empty, [CallGetImage (Some "ami-1")])).
Proof.
  split; [reflexivity |]. split; [reflexivity |].
  exact (proj1 (deregister_already_deleted Toy.ec2 Toy.clock 0 Toy.deregister
                  (Toy.already_gone, []) Toy.ghost Toy.empty eq_refl eq_refl)).
Defined.

Lemma deregister_call_fails_witness :
  Ec2.get_image Toy.refusing (image_id Toy.deregister_snapshots) Toy.one_image
    = (Ok (Some Toy.ami1), Toy.one_image)
  /\ Image.id Toy.ami1 = Some "ami-1"
  /\ Ec2.deregister_image Toy.refusing (image_id Toy.deregister_snapshots)
       (delete_snapshot Toy.deregister_snapshots) Toy.one_image
     = (Err Toy.unauthorized, Toy.one_image)
  /\ deregister_image Toy.refusing Toy.clock 0 Toy.deregister_snapshots
       (Toy.one_image, [])
     = (Exc (FailJson (msg_only
          "UnauthorizedOperation: You are not authorized to perform this operation.")),
        (Toy.one_image,
         [CallGetImage (Some "ami-1"); CallDeregisterImage (Some "ami-1") true])).
Proof.
  split; [reflexivity |]. split; [reflexivity |]. split; [reflexivity |].
  exact (deregister_call_fails Toy.refusing Toy.clock 0 Toy.deregister_snapshots
           (Toy.one_image, []) Toy.ami1 "ami-1" Toy.one_image Toy.unauthorized
           Toy.one_image eq_refl eq_refl eq_refl).
Defined.

Lemma deregister_without_waiting_witness :
  wait Toy.deregister = false
  /\ delete_snapshot Toy.deregister = false
  /\ deregister_request Toy.ec2 Toy.deregister (Toy.one_image, [])
     = (Val [Some "snap-1"; Some "snap-2"],
        (Toy.empty, [CallGetImage (Some "ami-1");
                     CallDeregisterImage (Some "ami-1") false]))
  /\ Ec2.get_image Toy.ec2 (image_id Toy.deregister) Toy.empty
     = (Ok None, Toy.empty)
  /\ time.time Toy.clock Toy.empty = (0%Q, Toy.empty)
  /\ deregister_image Toy.ec2 Toy.clock 0 Toy.deregister (Toy.one_image, [])
     = (Exc (ExitJson deregistered),
        (Toy.empty, [CallGetImage (Some "ami-1");
                     CallDeregisterImage (Some "ami-1") false;
                     CallGetImage (Some "ami-1"); CallTime 0])).
Proof.
  assert (H : deregister_request Toy.ec2 Toy.deregister (Toy.one_image, [])
              = (Val [Some "snap-1"; Some "snap-2"],
                 (Toy.empty, [CallGetImage (Some "ami-1");
                              CallDeregisterImage (Some "ami-1") false])))
    by (vm_compute; reflexivity).
  split; [reflexivity |]. split; [reflexivity |]. split; [exact H |].
  split; [reflexivity |]. split; [reflexivity |].
  exact (proj1 (deregister_without_waiting Toy.ec2 Toy.clock 0 Toy.deregister
                  (Toy.one_image, []) _ _ None Toy.empty 0%Q Toy.empty
                  eq_refl eq_refl H eq_refl eq_refl)).
Defined.

Lemma delete_phase_stops_at_first_failure_witness :
  delete_snapshot Toy.deregister_snapshots = true
  /\ Ec2.delete_snapshot Toy.ec2 (Some "snap-1") Toy.protected_snapshots
     = (Err Toy.unauthorized, Toy.protected_snapshots)
  /\ delete_phase Toy.ec2 Toy.deregister_snapshots
       [Some "snap-1"; Some "snap-2"] (Toy.protected_snapshots, [])
     = (Exc (ExitJson (deregistered_with [Some "snap-1"; Some "snap-2"])),
        (Toy.protected_snapshots, [CallDeleteSnapshot (Some "snap-1")])).
Proof.
  split; [reflexivity |]. split; [reflexivity |].
  exact (proj1 (proj2 (delete_phase_stops_at_first_failure Toy.ec2
                         Toy.deregister_snapshots [Some "snap-1"; Some "snap-2"]
                         (Toy.protected_snapshots, []) eq_refl))
           (Some "snap-1") [Some "snap-2"] Toy.unauthorized
           Toy.protected_snapshots eq_refl eq_refl).
Defined.

Lemma deregister_zero_timeout_times_out_witness :
  wait Toy.deregister_at_once = true
  /\ wait_timeout Toy.deregister_at_once <= 0
  /\ deregister_request Toy.ec2 Toy.deregister_at_once (Toy.one_image, [])
     = (Val [Some "snap-1"; Some "snap-2"],
        (Toy.empty, [CallGetImage (Some "ami-1");
                     CallDeregisterImage (Some "ami-1") false]))
  /\ Ec2.get_image Toy.ec2 (image_id Toy.deregister_at_once) Toy.empty
     = (Ok None, Toy.empty)
  /\ exists t0 t1 t2 w',
       deregister_image Toy.ec2 Toy.clock 0 Toy.deregister_at_once
         (Toy.one_image, [])
       = (Exc (FailJson (msg_only timed_out_msg)),
          (w', [CallGetImage (Some "ami-1");
                CallDeregisterImage (Some "ami-1") false]
               ++ [CallGetImage (Some "ami-1");
                   CallTime t0; CallTime t1; CallTime t2])).
Proof.
  assert (H : deregister_request Toy.ec2 Toy.deregister_at_once (Toy.one_image, [])
              = (Val [Some "snap-1"; Some "snap-2"],
                 (Toy.empty, [CallGetImage (Some "ami-1");
                              CallDeregisterImage (Some "ami-1") false])))
    by (vm_compute; reflexivity).
  assert (Hz : wait_timeout Toy.deregister_at_once <= 0) by (simpl; lia).
  split; [reflexivity |]. split; [exact Hz |]. split; [exact H |].
  split; [reflexivity |].
  exact (deregister_zero_timeout_times_out Toy.ec2 Toy.clock 0
           Toy.deregister_at_once (Toy.one_image, []) _ _ None Toy.empty
           eq_refl Hz Toy_steady H eq_refl).
Defined.

Lemma fetch_errors_are_not_reported_witness :
  Ec2.get_image Toy.ec2 (image_id Toy.deregister) Toy.unreachable
    = (Err Toy.unauthorized, Toy.one_image)
  /\ deregister_image Toy.ec2 Toy.clock 0 Toy.deregister (Toy.unreachable, [])
     = (Exc (Boto Toy.unauthorized),
        (Toy.one_image, [CallGetImage (Some "ami-1")])).
Proof.
  split; [reflexivity |].
  exact (proj1 (fetch_errors_are_not_reported Toy.ec2 Toy.clock 0 Toy.deregister
                  (Toy.unreachable, []) Toy.unauthorized Toy.one_image eq_refl)).
Defined.

(** *** create_image *)




Lemma create_image_lookup_fails_witness :
  Ec2.get_all_images Toy.refusing (name Toy.create_web) Toy.empty
    = (Err Toy.unauthorized, Toy.empty)
  /\ create_image Toy.refusing Toy.clock Toy.create_web (Toy.empty, [])
     = (Exc (FailJson (msg_only
          "UnauthorizedOperation: You are not authorized to perform this operation.")),
        (Toy.empty, [CallGetAllImages (Some "web")])).
Proof.
  split; [reflexivity |].
  exact (create_image_lookup_fails Toy.refusing Toy.clock Toy.create_web
           (Toy.empty, []) Toy.unauthorized Toy.empty eq_refl).
Defined.

Lemma create_image_create_call_fails_witness :
  Ec2.get_all_images Toy.ec2 (name Toy.create_web_both) Toy.no_creation
    = (Ok [], Toy.no_creation)
  /\ request_mapping Toy.create_web_both = Some None
  /\ truthy (instance_id Toy.create_web_both) = true
  /\ truthy (snapshot_id Toy.create_web_both) = true
  /\ Ec2.create_image Toy.ec2 (create_params Toy.create_web_both None)
       Toy.no_creation
     = (Err Toy.unauthorized, Toy.no_creation)
  /\ create_image Toy.ec2 Toy.clock Toy.create_web_both (Toy.no_creation, [])
     = (Exc (FailJson (msg_only
          "UnauthorizedOperation: You are not authorized to perform this operation.")),
        (Toy.no_creation,
         [CallGetAllImages (Some "web");
          CallCreateImage (create_params Toy.create_web_both None)])).
Proof.
  split; [reflexivity |]. split; [reflexivity |]. split; [reflexivity |].
  split; [reflexivity |]. split; [reflexivity |].
  exact (create_image_create_call_fails Toy.ec2 Toy.clock Toy.create_web_both
           (Toy.no_creation, []) Toy.no_creation None Toy.unauthorized
           Toy.no_creation eq_refl eq_refl eq_refl eq_refl).
Defined.

Lemma create_image_call_order_witness :
  create_image Toy.ec2 Toy.clock Toy.create_web (Toy.empty, [])
    = (fst Toy.first, snd Toy.first)
  /\ exists creations follow iid,
       snd (snd Toy.first)
       = [] ++ CallGetAllImages (Some "web") :: creations ++ follow
       /\ creations `prefix_of` planned_creations Toy.create_web
       /\ Forall (follows_up iid) follow.
Proof.
  assert (H : create_image Toy.ec2 Toy.clock Toy.create_web (Toy.empty, [])
              = (fst Toy.first, snd Toy.first)) by (vm_compute; reflexivity).
  split; [exact H |].
  exact (create_image_call_order Toy.ec2 Toy.clock Toy.create_web
           (Toy.empty, []) _ _ H).
Defined.


Lemma create_image_zero_wait_timeout_witness :
  wait_timeout Toy.create_web_at_once <= 0
  /\ (exists s1,
        create_image_calls Toy.ec2 Toy.create_web_at_once (Toy.empty, [])
          = (Val (Bound "ami-c0"), s1)
        /\ snd s1 = [CallGetAllImages (Some "web");
                     CallCreateImage (create_params Toy.create_web_at_once None)]
        /\ create_image Toy.ec2 Toy.clock Toy.create_web_at_once (Toy.empty, [])
           = (Exc (UnboundLocalError "img"), s1)).
Proof.
  assert (Hz : wait_timeout Toy.create_web_at_once <= 0) by (simpl; lia).
  split; [exact Hz |].
  exists (snd (create_image_calls Toy.ec2 Toy.create_web_at_once (Toy.empty, []))).
  assert (H : create_image_calls Toy.ec2 Toy.create_web_at_once (Toy.empty, [])
              = (Val (Bound "ami-c0"),
                 snd (create_image_calls Toy.ec2 Toy.create_web_at_once
                        (Toy.empty, [])))) by (vm_compute; reflexivity).
  split; [exact H |]. split; [vm_compute; reflexivity |].
  exact (create_image_zero_wait_timeout Toy.ec2 Toy.clock Toy.create_web_at_once
           (Toy.empty, []) _ _ H Hz).
Defined.

Lemma create_image_fetch_answers_none_witness :
  create_image_calls Toy.ec2 Toy.create_web (Toy.answers_none, [])
    = (Val (Bound "ami-c0"),
       snd (create_image_calls Toy.ec2 Toy.create_web (Toy.answers_none, [])))
  /\ 0 < wait_timeout Toy.create_web
  /\ fst (create_image Toy.ec2 Toy.clock Toy.create_web (Toy.answers_none, []))
     = Exc (AttributeError "state").
Proof.
  assert (H1 : create_image_calls Toy.ec2 Toy.create_web (Toy.answers_none, [])
               = (Val (Bound "ami-c0"),
                  snd (create_image_calls Toy.ec2 Toy.create_web
                         (Toy.answers_none, [])))) by (vm_compute; reflexivity).
  assert (H2 : 0 < wait_timeout Toy.create_web) by (simpl; lia).
  split; [exact H1 |]. split; [exact H2 |].
  refine (f_equal fst
            (create_image_fetch_answers_none Toy.ec2 Toy.clock Toy.create_web
               (Toy.answers_none, []) "ami-c0" _ _ H1 H2 _)).
  vm_compute; reflexivity.
Defined.

Lemma create_image_wait_reports_no_error_witness :
  wait Toy.create_web = false
  /\ Toy.pending = (Exc (FailJson (msg_only find_msg)), snd Toy.pending)
  /\ msg_only find_msg = msg_only find_msg.
Proof.
  assert (H : create_image_wait Toy.ec2 Toy.clock Toy.create_web
                (Bound "ami-c0") (Toy.still_pending, [])
              = (Exc (FailJson (msg_only find_msg)), snd Toy.pending))
    by (vm_compute; reflexivity).
  split; [reflexivity |]. split; [exact H |].
  exact (create_image_wait_reports_no_error Toy.ec2 Toy.clock Toy.create_web
           (Bound "ami-c0") (Toy.still_pending, []) _ _ eq_refl H).
Defined.

(** *** update_image *)

Lemma normalise_permissions_strings_witness :
  normalise_permissions {[ "user_ids" := [PInt 111; PStr "222"] ]}
    = {[ "user_ids" := [PStr "111"; PStr "222"] ]}
  /\ normalise_permissions
       (normalise_permissions {[ "user_ids" := [PInt 111; PStr "222"] ]})
     = normalise_permissions {[ "user_ids" := [PInt 111; PStr "222"] ]}.
Proof.
  split; [vm_compute; reflexivity |].
  exact (proj1 (normalise_permissions_strings
                  {[ "user_ids" := [PInt 111; PStr "222"] ]})).
Defined.

Lemma update_image_cannot_read_witness :
  launch_permissions Toy.share = Some {[ "user_ids" := [PInt 111] ]}
  /\ Ec2.get_image Toy.ec2 (image_id Toy.share) Toy.empty = (Ok None, Toy.empty)
  /\ update_image Toy.ec2 Toy.share (Toy.empty, [])
     = (Exc (FailJson (does_not_exist (Some "ami-1"))),
        (Toy.empty, [CallGetImage (Some "ami-1")]))
  /\ Ec2.get_launch_permissions Toy.refusing Toy.ami1 Toy.one_image
     = (Err Toy.unauthorized, Toy.one_image)
  /\ update_image Toy.refusing Toy.share (Toy.one_image, [])
     = (Exc (FailJson (msg_only
          "UnauthorizedOperation: You are not authorized to perform this operation.")),
        (Toy.one_image,
         [CallGetImage (Some "ami-1"); CallGetLaunchPermissions Toy.ami1])).
Proof.
  split; [reflexivity |]. split; [reflexivity |].
  split.
  - exact (proj1 (update_image_cannot_read Toy.ec2 Toy.share _
                    (Toy.empty, []) eq_refl) Toy.empty eq_refl).
  - split; [reflexivity |].
    exact (proj2 (update_image_cannot_read Toy.refusing Toy.share _
                    (Toy.one_image, []) eq_refl)
             Toy.ami1 Toy.one_image Toy.unauthorized Toy.one_image
             eq_refl eq_refl).
Defined.
